(** * Cron scheduler of the AFF4 backend (grr_response_server/aff4_objects/cronjobs.py)

    A shallow embedding of [CronManager] and [CronJob]: the job record with its
    AFF4 attributes, the execution engine (flows) it talks to, the stats
    collector, and the lease-protected store.  [CronJob.Run] and its helpers are
    written in a small state-and-exception monad whose state is the open job
    object together with the engine and the stats sink; exceptions keep the
    state reached so far, as the Python object keeps the attributes set before
    the raise (they are flushed when the [with] block closes). *)

From stdpp Require Import base gmap strings list fin_maps.
From Stdlib Require Import ZArith Lia.

Open Scope Z_scope.

(** ** Data model *)

(** [rdf_flow_runner.FlowContext.State]. *)
Inductive FlowContextState := RUNNING | TERMINATED | ERROR.

#[global] Instance FlowContextState_eq_dec : EqDecision FlowContextState.
Proof. solve_decision. Defined.

(** [rdf_cronjobs.CronJobRunStatus.Status]. *)
Inductive CronJobRunStatus := Status_OK | Status_ERROR | Status_TIMEOUT.

#[global] Instance CronJobRunStatus_eq_dec : EqDecision CronJobRunStatus.
Proof. solve_decision. Defined.

(** The exceptions the modelled code can raise. *)
Inductive exn :=
  | LockError             (* aff4.LockError *)
  | AttributeError        (* attribute access on a missing value (None) *)
  | TypeError             (* arithmetic on a missing value (None) *)
  | FlowError             (* the engine refuses to start a flow *)
  | ValueError.

#[global] Instance exn_eq_dec : EqDecision exn.
Proof. solve_decision. Defined.

(** [hunt_runner_args] of a generic hunt. *)
Record HuntRunnerArgs := {
  hunt_name : string;
  hunt_runner_rest : string }.

(** [rdf_hunts.CreateGenericHuntFlowArgs]. *)
Record CreateGenericHuntFlowArgs := {
  hunt_flow_args : string;               (* hunt_args.flow_args *)
  hunt_flow_name : string;               (* hunt_args.flow_runner_args.flow_name *)
  hunt_runner_args : HuntRunnerArgs }.

(** [rdf_cronjobs.CreateCronJobFlowArgs], the CRON_ARGS attribute.
    Times and durations are whole seconds; a [lifetime] or [start_time]
    of 0 is the unset (falsy) value. *)
Record CreateCronJobFlowArgs := {
  description : string;
  periodicity : Z;
  runner_flow_name : string;             (* flow_runner_args.flow_name *)
  flow_args : CreateGenericHuntFlowArgs;
  allow_overruns : bool;
  lifetime : Z;
  start_time : Z }.

#[global] Instance HuntRunnerArgs_eq_dec : EqDecision HuntRunnerArgs.
Proof. solve_decision. Defined.
#[global] Instance CreateGenericHuntFlowArgs_eq_dec : EqDecision CreateGenericHuntFlowArgs.
Proof. solve_decision. Defined.
#[global] Instance CreateCronJobFlowArgs_eq_dec : EqDecision CreateCronJobFlowArgs.
Proof. solve_decision. Defined.

(** [rdf_cronjobs.CreateCronJobArgs], the input of [CronManager.CreateJob]. *)
Record CreateCronJobArgs := {
  ca_flow_name : string;
  ca_flow_args : string;
  ca_hunt_runner_args : HuntRunnerArgs;
  ca_description : string;
  frequency : Z;
  ca_allow_overruns : bool;
  ca_lifetime : Z }.

(** The persisted attributes of a [CronJob] AFF4 object.  LAST_RUN_STATUS is
    versioned: every value written is kept, newest last. *)
Record CronJob := {
  CRON_ARGS : option CreateCronJobFlowArgs;
  DISABLED : bool;
  CURRENT_FLOW_URN : option nat;
  LAST_RUN_TIME : option Z;
  LAST_RUN_STATUS : list CronJobRunStatus }.

(** An AFF4 object with no attribute set. *)
Definition empty_job : CronJob :=
  {| CRON_ARGS := None; DISABLED := false; CURRENT_FLOW_URN := None;
     LAST_RUN_TIME := None; LAST_RUN_STATUS := [] |}.

Definition set_cron_args (a : option CreateCronJobFlowArgs) (j : CronJob) : CronJob :=
  {| CRON_ARGS := a; DISABLED := DISABLED j; CURRENT_FLOW_URN := CURRENT_FLOW_URN j;
     LAST_RUN_TIME := LAST_RUN_TIME j; LAST_RUN_STATUS := LAST_RUN_STATUS j |}.
Definition set_disabled (b : bool) (j : CronJob) : CronJob :=
  {| CRON_ARGS := CRON_ARGS j; DISABLED := b; CURRENT_FLOW_URN := CURRENT_FLOW_URN j;
     LAST_RUN_TIME := LAST_RUN_TIME j; LAST_RUN_STATUS := LAST_RUN_STATUS j |}.
Definition set_current_flow_urn (u : option nat) (j : CronJob) : CronJob :=
  {| CRON_ARGS := CRON_ARGS j; DISABLED := DISABLED j; CURRENT_FLOW_URN := u;
     LAST_RUN_TIME := LAST_RUN_TIME j; LAST_RUN_STATUS := LAST_RUN_STATUS j |}.
Definition set_last_run_time (t : option Z) (j : CronJob) : CronJob :=
  {| CRON_ARGS := CRON_ARGS j; DISABLED := DISABLED j; CURRENT_FLOW_URN := CURRENT_FLOW_URN j;
     LAST_RUN_TIME := t; LAST_RUN_STATUS := LAST_RUN_STATUS j |}.
(** Setting a versioned attribute appends a new version. *)
Definition add_last_run_status (s : CronJobRunStatus) (j : CronJob) : CronJob :=
  {| CRON_ARGS := CRON_ARGS j; DISABLED := DISABLED j; CURRENT_FLOW_URN := CURRENT_FLOW_URN j;
     LAST_RUN_TIME := LAST_RUN_TIME j; LAST_RUN_STATUS := LAST_RUN_STATUS j ++ [s] |}.

(** Calls the scheduler makes to the execution engine, in order. *)
Inductive EngineCall := Started (h : nat) | Terminated (h : nat).

#[global] Instance EngineCall_eq_dec : EqDecision EngineCall.
Proof. solve_decision. Defined.

(** Modelled from the spec: the execution engine (flow.StartAFF4Flow,
    GRRFlow.TerminateAFF4Flow and the flow runners), which lives outside
    this file.  [flows] maps a flow URN to its runner's context state,
    [next_flow] is the URN the next started flow receives, [known_flow] says
    which flow names can be started, and [eng_log] lists the requests
    received. *)
Record Engine := {
  flows : gmap nat FlowContextState;
  next_flow : nat;
  known_flow : string -> bool;
  eng_log : list EngineCall }.

Definition StartAFF4Flow (flow_name : string) (e : Engine) : option (nat * Engine) :=
  if known_flow e flow_name then
    let h := next_flow e in
    Some (h, {| flows := <[h := RUNNING]> (flows e); next_flow := S h;
                known_flow := known_flow e; eng_log := eng_log e ++ [Started h] |})
  else None.

(** A terminate request moves a running flow to ERROR; a finished flow is
    left as it is. *)
Definition TerminateAFF4Flow (h : nat) (e : Engine) : Engine :=
  {| flows := match flows e !! h with
              | Some RUNNING => <[h := ERROR]> (flows e)
              | _ => flows e
              end;
     next_flow := next_flow e; known_flow := known_flow e;
     eng_log := eng_log e ++ [Terminated h] |}.

(** Events sent to the stats collector and the log. *)
Inductive StatEvent :=
  | IncrementCounter (name : string) (fields : list string)
  | RecordEvent (name : string) (value : Z) (fields : list string)
  | LogException (urn : string).

(** The state of one [CronJob.Run] call: the open object (its attributes, its
    basename and whether it was opened with a lock) and its collaborators. *)
Record RunState := {
  job : CronJob;
  urn_basename : string;
  locked : bool;
  eng : Engine;
  stats : list StatEvent }.

(** ** The state-and-exception monad *)

Definition M (A : Type) := RunState -> RunState * (exn + A).

Definition ret {A} (a : A) : M A := fun st => (st, inr a).
Definition raise {A} (e : exn) : M A := fun st => (st, inl e).
Definition bind {A B} (m : M A) (k : A -> M B) : M B :=
  fun st => match m st with
            | (st', inl e) => (st', inl e)
            | (st', inr a) => k a st'
            end.

Notation "x <-- m ;; k" := (bind m (fun x => k))
  (at level 100, m at next level, right associativity).
Notation "m ;;; k" := (bind m (fun _ => k))
  (at level 100, right associativity).

Definition get_job : M CronJob := fun st => (st, inr (job st)).

Definition modify_job (f : CronJob -> CronJob) : M unit :=
  fun st => ({| job := f (job st); urn_basename := urn_basename st; locked := locked st;
                eng := eng st; stats := stats st |}, inr tt).

Definition modify_eng (f : Engine -> Engine) : M unit :=
  fun st => ({| job := job st; urn_basename := urn_basename st; locked := locked st;
                eng := f (eng st); stats := stats st |}, inr tt).

Definition emit (ev : StatEvent) : M unit :=
  fun st => ({| job := job st; urn_basename := urn_basename st; locked := locked st;
                eng := eng st; stats := stats st ++ [ev] |}, inr tt).

Definition get_basename : M string := fun st => (st, inr (urn_basename st)).

(** Reading a flow's runner state; [None] when the URN is not a flow. *)
Definition get_flow (h : nat) : M (option FlowContextState) :=
  fun st => (st, inr (flows (eng st) !! h)).

(** [self.Get(self.Schema.CRON_ARGS).field]: a missing attribute is None and
    the field access raises. *)
Definition get_cron_args : M CreateCronJobFlowArgs :=
  j <-- get_job ;;
  match CRON_ARGS j with
  | Some a => ret a
  | None => raise AttributeError
  end.

(** ** CronJob methods *)

Definition is_running (s : FlowContextState) : bool :=
  match s with RUNNING => true | _ => false end.

(** [CronJob.IsRunning]: a URN that does not open as a flow is cleared. *)
Definition IsRunning : M bool :=
  j <-- get_job ;;
  match CURRENT_FLOW_URN j with
  | None => ret false
  | Some current_urn =>
      f <-- get_flow current_urn ;;
      match f with
      | None => modify_job (set_current_flow_urn None) ;;; ret false
      | Some s => ret (is_running s)
      end
  end.

(** [Duration.Expiry]. *)
Definition Expiry (periodicity last_run_time : Z) : Z := last_run_time + periodicity.

(** [CronJob.DueToRun]; [now] is [RDFDatetime.Now()]. *)
Definition DueToRun (now : Z) : M bool :=
  j <-- get_job ;;
  if DISABLED j then ret false else
  cron_args <-- get_cron_args ;;
  let last_run_time := LAST_RUN_TIME j in
  if match last_run_time with
     | None => true
     | Some t => bool_decide (now > Expiry (periodicity cron_args) t)
     end
  then
    if bool_decide (now < start_time cron_args) then ret false
    else if allow_overruns cron_args then ret true
    else match CURRENT_FLOW_URN j with
         | None => ret true
         | Some _ => ret false
         end
  else ret false.

(** [CronJob.StopCurrentRun]. *)
Definition StopCurrentRun : M unit :=
  j <-- get_job ;;
  match CURRENT_FLOW_URN j with
  | Some current_flow_urn =>
      modify_eng (TerminateAFF4Flow current_flow_urn) ;;;
      modify_job (add_last_run_status Status_TIMEOUT) ;;;
      modify_job (set_current_flow_urn None)
  | None => ret tt
  end.

(** [CronJob.KillOldFlows]; [lifetime and elapsed > lifetime] tests a
    nonzero lifetime. *)
Definition KillOldFlows (now : Z) : M bool :=
  r <-- IsRunning ;;
  if negb r then ret false else
  j <-- get_job ;;
  cron_args <-- get_cron_args ;;
  let lifetime := lifetime cron_args in
  match LAST_RUN_TIME j with
  | None => raise TypeError
  | Some start_time =>
      let elapsed := now - start_time in
      if bool_decide (lifetime <> 0) && bool_decide (elapsed > lifetime) then
        StopCurrentRun ;;;
        name <-- get_basename ;;
        emit (IncrementCounter "cron_job_timeout" [name]) ;;;
        emit (RecordEvent "cron_job_latency" elapsed [name]) ;;;
        ret true
      else ret false
  end.

(** The "currently running flow has finished" block of [CronJob.Run]. *)
Definition ReapFinishedFlow (now : Z) : M unit :=
  j <-- get_job ;;
  match CURRENT_FLOW_URN j with
  | None => ret tt
  | Some current_flow_urn =>
      f <-- get_flow current_flow_urn ;;
      match f with
      | None => raise AttributeError
      | Some s =>
          if is_running s then ret tt else
          (if decide (s = ERROR) then
             modify_job (add_last_run_status Status_ERROR) ;;;
             name <-- get_basename ;;
             emit (IncrementCounter "cron_job_failure" [name])
           else
             modify_job (add_last_run_status Status_OK) ;;;
             j' <-- get_job ;;
             match LAST_RUN_TIME j' with
             | None => raise AttributeError
             | Some start_time =>
                 name <-- get_basename ;;
                 emit (RecordEvent "cron_job_latency" (now - start_time) [name])
             end) ;;;
          modify_job (set_current_flow_urn None)
      end
  end.

(** Starting a flow through the engine; an unknown flow name raises. *)
Definition start_flow (flow_name : string) : M nat :=
  fun st => match StartAFF4Flow flow_name (eng st) with
            | Some (h, e') =>
                ({| job := job st; urn_basename := urn_basename st; locked := locked st;
                    eng := e'; stats := stats st |}, inr h)
            | None => (st, inl FlowError)
            end.

(** The last block of [CronJob.Run]: unless forced, return when the job is
    not due; otherwise start the flow and record it. *)
Definition StartNewRun (force : bool) (now : Z) : M unit :=
  due <-- (if force then ret true else DueToRun now) ;;
  if negb due then ret tt else
  cron_args <-- get_cron_args ;;
  flow_urn <-- start_flow (runner_flow_name cron_args) ;;
  modify_job (set_current_flow_urn (Some flow_urn)) ;;;
  modify_job (set_last_run_time (Some now)).

(** [CronJob.Run]; every clock reading of one evaluation is [now]. *)
Definition Run (force : bool) (now : Z) : M unit :=
  fun st =>
  if negb (locked st) then (st, inl LockError) else
  (KillOldFlows now ;;; ReapFinishedFlow now ;;; StartNewRun force now) st.

(** ** CronManager *)

(** The store side of the scheduler: the CronJob records under aff4:/cron,
    the leases on them (expiry time per job id), the engine, the stats sink
    and the lease requests made so far (job id, blocking flag, lease time). *)
Record World := {
  store : gmap string CronJob;
  leases : gmap string Z;
  w_eng : Engine;
  w_stats : list StatEvent;
  lease_log : list (string * bool * Z) }.

Definition with_store (s : gmap string CronJob) (w : World) : World :=
  {| store := s; leases := leases w; w_eng := w_eng w; w_stats := w_stats w;
     lease_log := lease_log w |}.

(** [CronManager.ListJobs]: the children of aff4:/cron (order unspecified). *)
Definition ListJobs (w : World) : list string := map fst (map_to_list (store w)).

Definition lease_held (w : World) (urn : string) (now : Z) : bool :=
  match leases w !! urn with
  | Some expiry => bool_decide (now < expiry)
  | None => false
  end.

(** The waiting parameters of a blocking lease request (the store's
    defaults [blocking_lock_timeout=10], [blocking_sleep_interval=1]). *)
Definition blocking_lock_timeout : Z := 10.
Definition blocking_sleep_interval : Z := 1.

(** The retries of a blocking lease request after a failed attempt at [t]
    (the first attempt was at [start]): give up once more than
    [blocking_lock_timeout] seconds have passed, else sleep and try again.
    Nobody else acts while it waits, so a retry succeeds exactly when the
    lease has expired by then; the result is the time of the successful
    attempt.  The fuel covers every retry the timeout allows. *)
Fixpoint blocking_retry (fuel : nat) (w : World) (urn : string) (start t : Z) : option Z :=
  match fuel with
  | O => None
  | S f =>
      if bool_decide (t - start > blocking_lock_timeout) then None
      else let t' := t + blocking_sleep_interval in
           if lease_held w urn t' then blocking_retry f w urn start t' else Some t'
  end.

(** Modelled from the spec: [aff4.FACTORY.OpenWithLock], the store's lease
    primitive.  The request is recorded.  A free lease (none, or expired at
    [now]) is taken until [now + lease_time] and the record (if any) is
    opened.  When another holder's lease is in force, a non-blocking request
    raises LockError at once (the spec's non-blocking acquisition); a
    blocking request (the store's default) waits as [blocking_retry] says
    and takes the lease when it gets it, or raises LockError. *)
Definition OpenWithLock (urn : string) (blocking : bool) (lease_time now : Z)
    (w : World) : World * (exn + option CronJob) :=
  let w1 := {| store := store w; leases := leases w; w_eng := w_eng w;
               w_stats := w_stats w;
               lease_log := lease_log w ++ [(urn, blocking, lease_time)] |} in
  if lease_held w1 urn now then
    if blocking then
      match blocking_retry 12 w1 urn now now with
      | None => (w1, inl LockError)
      | Some t =>
          ({| store := store w1; leases := <[urn := t + lease_time]> (leases w1);
              w_eng := w_eng w1; w_stats := w_stats w1; lease_log := lease_log w1 |},
           inr (store w1 !! urn))
      end
    else (w1, inl LockError)
  else ({| store := store w1; leases := <[urn := now + lease_time]> (leases w1);
           w_eng := w_eng w1; w_stats := w_stats w1; lease_log := lease_log w1 |},
        inr (store w1 !! urn)).

(** Closing the locked object: its attributes are flushed and the lease is
    released. *)
Definition CloseWithLock (urn : string) (j : option CronJob) (e : Engine)
    (sts : list StatEvent) (w : World) : World :=
  {| store := match j with Some j => <[urn := j]> (store w) | None => store w end;
     leases := delete urn (leases w); w_eng := e; w_stats := sts;
     lease_log := lease_log w |}.

Definition internal_error (urn : string) : list StatEvent :=
  [LogException urn; IncrementCounter "cron_internal_error" []].

(** One iteration of the loop of [CronManager.RunOnce].  A name without a
    record opens as a plain AFF4 volume, which has no [Run]: the call raises
    and is counted like any other evaluation error. *)
Definition RunOnceJob (force : bool) (now : Z) (name : string) (w : World) : exn + World :=
  match OpenWithLock name false 600 now w with
  | (w1, inl LockError) => inr w1
  | (w1, inl e) => inl e
  | (w1, inr None) => inr (CloseWithLock name None (w_eng w1) (w_stats w1 ++ internal_error name) w1)
  | (w1, inr (Some j)) =>
      let st := {| job := j; urn_basename := name; locked := true;
                   eng := w_eng w1; stats := w_stats w1 |} in
      match Run force now st with
      | (st', inr _) => inr (CloseWithLock name (Some (job st')) (eng st') (stats st') w1)
      | (st', inl _) =>
          inr (CloseWithLock name (Some (job st')) (eng st') (stats st' ++ internal_error name) w1)
      end
  end.

Fixpoint RunOnceJobs (force : bool) (now : Z) (names : list string) (w : World) : exn + World :=
  match names with
  | [] => inr w
  | name :: rest =>
      match RunOnceJob force now name w with
      | inl e => inl e
      | inr w' => RunOnceJobs force now rest w'
      end
  end.

(** [names or self.ListJobs()]: an absent or empty list means all jobs. *)
Definition effective_names (names : option (list string)) (w : World) : list string :=
  match names with
  | Some (n :: ns) => n :: ns
  | _ => ListJobs w
  end.

(** [CronManager.RunOnce]. *)
Definition RunOnce (force : bool) (names : option (list string)) (now : Z) (w : World)
    : exn + World :=
  RunOnceJobs force now (effective_names names w) w.

(** [CronManager.CreateJob].  [default_start_time] is the value a freshly
    built CreateCronJobFlowArgs carries in [start_time] (CreateJob does not
    set it), [uid] the rendering of [random.UInt16()]. *)
Definition CreateJob (default_start_time : Z) (uid : string) (cron_args : CreateCronJobArgs)
    (job_id : option string) (enabled : bool) (store : gmap string CronJob)
    : gmap string CronJob * string :=
  let job_id := match job_id with
                | Some id => if bool_decide (id = "") then (ca_flow_name cron_args ++ "_" ++ uid)%string else id
                | None => (ca_flow_name cron_args ++ "_" ++ uid)%string
                end in
  let create_cron_args :=
    {| description := ca_description cron_args;
       periodicity := frequency cron_args;
       runner_flow_name := "CreateAndRunGenericHuntFlow";
       flow_args := {| hunt_flow_args := ca_flow_args cron_args;
                       hunt_flow_name := ca_flow_name cron_args;
                       hunt_runner_args :=
                         {| hunt_name := "GenericHunt";
                            hunt_runner_rest := hunt_runner_rest (ca_hunt_runner_args cron_args) |} |};
       allow_overruns := ca_allow_overruns cron_args;
       lifetime := ca_lifetime cron_args;
       start_time := default_start_time |} in
  let cron_job := match store !! job_id with Some j => j | None => empty_job end in
  let existing_cron_args := CRON_ARGS cron_job in
  let create_cron_args :=
    match existing_cron_args with
    | Some e =>
        if bool_decide (start_time e <> 0) then
          {| description := description create_cron_args;
             periodicity := periodicity create_cron_args;
             runner_flow_name := runner_flow_name create_cron_args;
             flow_args := flow_args create_cron_args;
             allow_overruns := allow_overruns create_cron_args;
             lifetime := lifetime create_cron_args;
             start_time := start_time e |}
        else create_cron_args
    | None => create_cron_args
    end in
  let cron_job := if decide (Some create_cron_args <> existing_cron_args)
                  then set_cron_args (Some create_cron_args) cron_job else cron_job in
  let cron_job := set_disabled (negb enabled) cron_job in
  (<[job_id := cron_job]> store, job_id).

(** The run history of one job (child flow URN to its index timestamp) and
    the flow states kept by the queue manager. *)
Record RunsWorld := {
  children : gmap nat Z;
  queued_states : gset nat }.

(** Modelled from the spec: [job.ListChildren(age=cutoff)], the children of
    the job older than the cutoff. *)
Definition ListChildren_before (cutoff : Z) (children : gmap nat Z) : list nat :=
  map fst (map_to_list (filter (fun kv => kv.2 < cutoff) children)).

(** Modelled from the spec: [QueueManager.MultiDestroyFlowStates], which
    discards the queued state of the given flows. *)
Definition MultiDestroyFlowStates (urns : list nat) (q : gset nat) : gset nat :=
  q ∖ list_to_set urns.

(** [aff4.FACTORY.MultiDelete] on the listed children. *)
Definition MultiDelete (urns : list nat) (children : gmap nat Z) : gmap nat Z :=
  foldr delete children urns.

(** [CronManager.DeleteOldRuns]. *)
Definition DeleteOldRuns (cutoff_timestamp : option Z) (w : RunsWorld)
    : exn + (RunsWorld * nat) :=
  match cutoff_timestamp with
  | None => inl ValueError
  | Some cutoff =>
      let child_flows := ListChildren_before cutoff (children w) in
      let q := MultiDestroyFlowStates child_flows (queued_states w) in
      inr ({| children := MultiDelete child_flows (children w); queued_states := q |},
           length child_flows)
  end.

(** ** Enabling and disabling *)

(** [CronManager.EnableJob]: the record is opened "rw" as a CronJob (a
    missing record cannot be opened as one: [None]), DISABLED is overwritten
    and the object closed.  No lease is taken: DISABLED is not lock
    protected. *)
Definition EnableJob (job_id : string) (store : gmap string CronJob)
    : option (gmap string CronJob) :=
  match store !! job_id with
  | Some cron_job => Some (<[job_id := set_disabled false cron_job]> store)
  | None => None
  end.

(** [CronManager.DisableJob]. *)
Definition DisableJob (job_id : string) (store : gmap string CronJob)
    : option (gmap string CronJob) :=
  match store !! job_id with
  | Some cron_job => Some (<[job_id := set_disabled true cron_job]> store)
  | None => None
  end.

(** ** Scheduling the system cron flows *)

(** A flow class of the registry, with the class attributes
    [ScheduleSystemCronFlows] reads; [is_system_cron_flow] is
    [issubclass(cls, SystemCronFlow)]. *)
Record FlowClass := {
  is_system_cron_flow : bool;
  cls_frequency : Z;
  cls_lifetime : Z;
  cls_allow_overruns : bool;
  cls_enabled : bool }.

(** [registry.AFF4FlowRegistry.FlowClassByName]: an unknown name raises
    ValueError, as the caller's [except ValueError] expects. *)
Definition FlowClassByName (registry : gmap string FlowClass) (name : string)
    : option FlowClass :=
  registry !! name.

(** The two ValueErrors of [ScheduleSystemCronFlows]: an unknown name in
    [names], and the collected errors about Cron.disabled_system_jobs. *)
Inductive ScheduleError :=
  | NoSuchFlow (name : string)
  | DisabledSystemJobsErrors (errors : list string).

(** The check of Cron.disabled_system_jobs. *)
Fixpoint disabled_jobs_errors (registry : gmap string FlowClass) (disabled : list string)
    : list string :=
  match disabled with
  | [] => []
  | name :: rest =>
      match FlowClassByName registry name with
      | None => ("No such flow: " ++ name ++ ".")%string :: disabled_jobs_errors registry rest
      | Some cls =>
          if is_system_cron_flow cls then disabled_jobs_errors registry rest
          else ("Disabled system cron job name doesn't correspond to a flow inherited from SystemCronFlow: " ++ name)%string
               :: disabled_jobs_errors registry rest
      end
  end.

(** [rdf_cronjobs.CreateCronJobFlowArgs(periodicity=..., lifetime=...,
    allow_overruns=...)] with [flow_runner_args.flow_name = name]; [fresh]
    is the value of a freshly built CreateCronJobFlowArgs. *)
Definition system_cron_args (fresh : CreateCronJobFlowArgs) (name : string) (cls : FlowClass)
    : CreateCronJobFlowArgs :=
  {| description := description fresh; periodicity := cls_frequency cls;
     runner_flow_name := name; flow_args := flow_args fresh;
     allow_overruns := cls_allow_overruns cls; lifetime := cls_lifetime cls;
     start_time := start_time fresh |}.

(** One iteration of the scheduling loop. *)
Definition schedule_system_flow (fresh : CreateCronJobFlowArgs) (disabled : list string)
    (registry : gmap string FlowClass) (name : string) (store : gmap string CronJob)
    : option (gmap string CronJob) :=
  match FlowClassByName registry name with
  | None => None
  | Some cls =>
      if negb (is_system_cron_flow cls) then Some store else
      let cron_args := system_cron_args fresh name cls in
      let enabled := if cls_enabled cls then bool_decide (name ∉ disabled) else false in
      let cron_job := match store !! name with Some j => j | None => empty_job end in
      let cron_job := if decide (Some cron_args <> CRON_ARGS cron_job)
                      then set_cron_args (Some cron_args) cron_job else cron_job in
      Some (<[name := set_disabled (negb enabled) cron_job]> store)
  end.

Fixpoint schedule_system_flows (fresh : CreateCronJobFlowArgs) (disabled : list string)
    (registry : gmap string FlowClass) (names : list string) (store : gmap string CronJob)
    : gmap string CronJob * option ScheduleError :=
  match names with
  | [] => (store, None)
  | name :: rest =>
      match schedule_system_flow fresh disabled registry name store with
      | None => (store, Some (NoSuchFlow name))
      | Some store' => schedule_system_flows fresh disabled registry rest store'
      end
  end.

(** [ScheduleSystemCronFlows] on the AFF4 data store (RelationalDBEnabled()
    false).  Records written before a raise stay written. *)
Definition ScheduleSystemCronFlows (fresh : CreateCronJobFlowArgs) (disabled : list string)
    (registry : gmap string FlowClass) (names : option (list string))
    (store : gmap string CronJob) : gmap string CronJob * option ScheduleError :=
  let errors := disabled_jobs_errors registry disabled in
  let names := match names with
               | None => map fst (map_to_list registry)
               | Some ns => ns
               end in
  match schedule_system_flows fresh disabled registry names store with
  | (store', Some e) => (store', Some e)
  | (store', None) =>
      match errors with
      | [] => (store', None)
      | _ :: _ => (store', Some (DisabledSystemJobsErrors errors))
      end
  end.

(** ** The cron worker loop *)

(** [k] iterations of the [while True] loop of [CronWorker._RunLoop]: a
    RunOnce pass (an exception is logged and dropped), then [time.sleep]. *)
Fixpoint RunLoopPasses (k : nat) (now sleep : Z) (w : World) : World :=
  match k with
  | O => w
  | S k' =>
      let w' := match RunOnce false None now w with
                | inr w' => w'
                | inl _ => w
                end in
      RunLoopPasses k' (now + sleep) sleep w'
  end.

(** [CronWorker._RunLoop] cut after [k] passes: the system flows are
    scheduled first, outside the loop's [try], so a raise there ends the
    worker thread. *)
Definition RunLoop (fresh : CreateCronJobFlowArgs) (disabled : list string)
    (registry : gmap string FlowClass) (k : nat) (now sleep : Z) (w : World)
    : World * option ScheduleError :=
  match ScheduleSystemCronFlows fresh disabled registry None (store w) with
  | (store', Some e) => (with_store store' w, Some e)
  | (store', None) => (RunLoopPasses k now sleep (with_store store' w), None)
  end.

(** ** Cron state of stateful system flows *)

(** The errors [ReadCronState] and [WriteCronState] raise; a LockError of
    the lease request is not caught and propagates as it is. *)
Inductive StateError := StateReadError | StateWriteError | StateLockError.

(** [StatefulSystemCronFlow.ReadCronState]: [state_dicts] holds the
    STATE_DICT attribute of each record.  A missing record cannot be opened
    as a CronJob (StateReadError); an unset or empty attribute reads as an
    empty dict. *)
Definition ReadCronState (name : string) (w : World)
    (state_dicts : gmap string (gmap string string)) : StateError + gmap string string :=
  match store w !! name with
  | None => inl StateReadError
  | Some _ => inr (match state_dicts !! name with Some d => d | None => ∅ end)
  end.

(** [StatefulSystemCronFlow.WriteCronState]: an empty state is not
    written; otherwise the record is opened with a (blocking) lease of the
    store's default [lease_time], STATE_DICT is set and the lease released. *)
Definition WriteCronState (state : gmap string string) (name : string) (lease_time now : Z)
    (w : World) (state_dicts : gmap string (gmap string string))
    : StateError + (World * gmap string (gmap string string)) :=
  if bool_decide (state = ∅) then inr (w, state_dicts) else
  match OpenWithLock name true lease_time now w with
  | (_, inl _) => inl StateLockError
  | (_, inr None) => inl StateWriteError
  | (w1, inr (Some j)) =>
      inr (CloseWithLock name (Some j) (w_eng w1) (w_stats w1) w1, <[name := state]> state_dicts)
  end.

(** ** Sample inputs *)

Definition sample_hunt_args : CreateGenericHuntFlowArgs :=
  {| hunt_flow_args := ""; hunt_flow_name := "Interrogate";
     hunt_runner_args := {| hunt_name := "GenericHunt"; hunt_runner_rest := "" |} |}.

Definition sample_args (lifetime : Z) (allow_overruns : bool) : CreateCronJobFlowArgs :=
  {| description := "sample"; periodicity := 3600;
     runner_flow_name := "CreateAndRunGenericHuntFlow"; flow_args := sample_hunt_args;
     allow_overruns := allow_overruns; lifetime := lifetime; start_time := 0 |}.

Definition sample_job (disabled : bool) (args : CreateCronJobFlowArgs)
    (current : option nat) (last : option Z) : CronJob :=
  {| CRON_ARGS := Some args; DISABLED := disabled; CURRENT_FLOW_URN := current;
     LAST_RUN_TIME := last; LAST_RUN_STATUS := [] |}.

Definition sample_engine (fl : gmap nat FlowContextState) : Engine :=
  {| flows := fl; next_flow := 7; known_flow := fun _ => true; eng_log := [] |}.

Definition sample_state (j : CronJob) (fl : gmap nat FlowContextState) : RunState :=
  {| job := j; urn_basename := "sample_job"; locked := true;
     eng := sample_engine fl; stats := [] |}.

(** The same job arguments with another frequency. *)
Definition with_frequency (f : Z) (a : CreateCronJobArgs) : CreateCronJobArgs :=
  {| ca_flow_name := ca_flow_name a; ca_flow_args := ca_flow_args a;
     ca_hunt_runner_args := ca_hunt_runner_args a; ca_description := ca_description a;
     frequency := f; ca_allow_overruns := ca_allow_overruns a; ca_lifetime := ca_lifetime a |}.

(** ** Frame of the reap steps *)

(** [reap_frame st st']: the step from [st] to [st'] keeps DISABLED and
    LAST_RUN_TIME, at most clears the tracked URN, and sends no start
    request. *)
Definition reap_frame (st st' : RunState) : Prop :=
  DISABLED (job st') = DISABLED (job st) /\
  LAST_RUN_TIME (job st') = LAST_RUN_TIME (job st) /\
  (CURRENT_FLOW_URN (job st') = None \/ CURRENT_FLOW_URN (job st') = CURRENT_FLOW_URN (job st)) /\
  (forall h, In (Started h) (eng_log (eng st')) -> In (Started h) (eng_log (eng st))).

Definition reap_safe {A} (m : M A) : Prop := forall st, reap_frame st (fst (m st)).

(** ** Monad lemmas *)

Lemma bind_inr {A B} (m : M A) (k : A -> M B) st st' a :
  m st = (st', inr a) -> bind m k st = k a st'.
Proof. unfold bind. intros ->. reflexivity. Qed.

Lemma bind_inl {A B} (m : M A) (k : A -> M B) st st' e :
  m st = (st', inl e) -> bind m k st = (st', inl e).
Proof. unfold bind. intros ->. reflexivity. Qed.

Lemma DueToRun_state now st : fst (DueToRun now st) = st.
Proof.
  destruct st as [[ca dis cur lrt lrs] n lk e s].
  unfold DueToRun, get_job, get_cron_args, bind, ret, raise; simpl.
  destruct dis; [reflexivity|].
  destruct ca as [a|]; [|reflexivity]; simpl.
  destruct (match lrt with Some t => _ | None => true end); [|reflexivity].
  destruct (bool_decide _); [reflexivity|].
  destruct (allow_overruns a); [reflexivity|].
  destruct cur; reflexivity.
Qed.

(** ** Claims *)

(** C6: [Run] on an object opened without its lock raises LockError (the
    modelled [aff4.LockError]) and leaves the record, the engine and the
    stats exactly as they were: the check comes before any reap or start. *)
Theorem Run_not_locked_raises (force : bool) (now : Z) (st : RunState)
    (Hunlocked : locked st = false) :
  Run force now st = (st, inl LockError).
Proof. unfold Run. rewrite Hunlocked. reflexivity. Qed.

Lemma Run_not_locked_raises_witness :
  let st := {| job := sample_job false (sample_args 600 false) (Some 3%nat) (Some 0);
               urn_basename := "sample_job"; locked := false;
               eng := sample_engine {[3%nat := RUNNING]}; stats := [] |} in
  locked st = false /\ Run true 5000 st = (st, inl LockError).
Proof.
  intros st. split; [reflexivity|].
  apply (Run_not_locked_raises true 5000 st). reflexivity.
Defined.

(** C2, counterexample: a job that never ran ([LAST_RUN_TIME] unset), whose
    start time has passed, is not disabled, but still tracks a flow URN and
    disallows overruns, is not due. *)
Lemma DueToRun_never_run_with_handle_not_due :
  let st := sample_state (sample_job false (sample_args 0 false) (Some 3%nat) None) ∅ in
  DISABLED (job st) = false /\ LAST_RUN_TIME (job st) = None /\
  (forall a, CRON_ARGS (job st) = Some a -> start_time a <= 10) /\
  DueToRun 10 st = (st, inr false).
Proof.
  intros st. split; [reflexivity|]. split; [reflexivity|]. split.
  - intros a Ha. injection Ha as <-. simpl. lia.
  - reflexivity.
Qed.

(** C2 (amended): for a job with CRON_ARGS, [DueToRun] changes nothing and
    returns true exactly when the job is not disabled, [now] is not before
    [start_time], the job never ran or [now] is past
    [Expiry(last_run_time, periodicity)], and overruns are allowed or no
    flow URN is tracked.  The overrun guard applies to never-run jobs too. *)
Theorem DueToRun_decision (now : Z) (st : RunState) (a : CreateCronJobFlowArgs)
    (Hargs : CRON_ARGS (job st) = Some a) :
  exists b, DueToRun now st = (st, inr b) /\
    (b = true <->
       DISABLED (job st) = false /\ start_time a <= now /\
       (LAST_RUN_TIME (job st) = None \/
        exists t, LAST_RUN_TIME (job st) = Some t /\ now > Expiry (periodicity a) t) /\
       (allow_overruns a = true \/ CURRENT_FLOW_URN (job st) = None)).
Proof.
  destruct st as [[ca dis cur lrt lrs] n lk e s]; simpl in *; subst ca.
  cbv beta iota zeta delta [DueToRun get_job get_cron_args bind ret job CRON_ARGS DISABLED
                       CURRENT_FLOW_URN LAST_RUN_TIME].
  destruct dis.
  - eexists; split; [reflexivity|]. split; [discriminate|]. intros [H _]; discriminate.
  - assert (Hlast : (match lrt with
                     | Some t => bool_decide (now > Expiry (periodicity a) t)
                     | None => true end = true) <->
                    (lrt = None \/ exists t, lrt = Some t /\ now > Expiry (periodicity a) t)).
    { destruct lrt as [t|]; split.
      - intros H. apply bool_decide_eq_true in H. right. eauto.
      - intros [H|[t' [H1 H2]]]; [discriminate|]. injection H1 as <-.
        apply bool_decide_eq_true. exact H2.
      - intros _. left. reflexivity.
      - intros _. reflexivity. }
    destruct (match lrt with Some t => _ | None => true end) eqn:Hm.
    + destruct (bool_decide (now < start_time a)) eqn:Hs.
      * apply bool_decide_eq_true in Hs.
        eexists; split; [reflexivity|]. split; [discriminate|]. intros (_ & H & _). lia.
      * apply bool_decide_eq_false in Hs.
        destruct (allow_overruns a) eqn:Ho.
        -- eexists; split; [reflexivity|]. split; [|reflexivity].
           intros _. repeat split; [lia| apply Hlast; reflexivity | left; reflexivity].
        -- destruct cur as [c|].
           ++ eexists; split; [reflexivity|]. split; [discriminate|].
              intros (_ & _ & _ & [H|H]); discriminate.
           ++ eexists; split; [reflexivity|]. split; [|reflexivity].
              intros _. repeat split; [lia| apply Hlast; reflexivity | right; reflexivity].
    + eexists; split; [reflexivity|]. split; [discriminate|].
      intros (_ & _ & H & _). apply Hlast in H. discriminate.
Qed.

Lemma DueToRun_decision_witness :
  let st := sample_state (sample_job false (sample_args 0 true) (Some 3%nat) (Some 0)) ∅ in
  CRON_ARGS (job st) = Some (sample_args 0 true) /\
  exists b, DueToRun 5000 st = (st, inr b) /\
    (b = true <->
       DISABLED (job st) = false /\ start_time (sample_args 0 true) <= 5000 /\
       (LAST_RUN_TIME (job st) = None \/
        exists t, LAST_RUN_TIME (job st) = Some t /\ 5000 > Expiry (periodicity (sample_args 0 true)) t) /\
       (allow_overruns (sample_args 0 true) = true \/ CURRENT_FLOW_URN (job st) = None)).
Proof.
  intros st. split; [reflexivity|].
  apply (DueToRun_decision 5000 st (sample_args 0 true)). reflexivity.
Defined.

Lemma due_step_state (force : bool) (now : Z) (st : RunState) :
  exists r, (if force then ret true else DueToRun now) st = (st, r).
Proof.
  destruct force; [eexists; reflexivity|].
  pose proof (DueToRun_state now st) as Hs.
  destruct (DueToRun now st) as [st1 r]. simpl in Hs. subst. eauto.
Qed.

Lemma StartAFF4Flow_log (flow_name : string) (e e' : Engine) (h : nat) :
  StartAFF4Flow flow_name e = Some (h, e') -> eng_log e' = eng_log e ++ [Started h].
Proof.
  unfold StartAFF4Flow. destruct (known_flow e flow_name); [|discriminate].
  intros H. injection H as <- <-. reflexivity.
Qed.

(** The start block records a started flow and nothing else. *)
Lemma StartNewRun_shape (force : bool) (now : Z) (st st' : RunState) (res : exn + unit) :
  StartNewRun force now st = (st', res) ->
  LAST_RUN_STATUS (job st') = LAST_RUN_STATUS (job st) /\ stats st' = stats st /\
  ((eng_log (eng st') = eng_log (eng st) /\
    CURRENT_FLOW_URN (job st') = CURRENT_FLOW_URN (job st)) \/
   (exists h, eng_log (eng st') = eng_log (eng st) ++ [Started h] /\
              CURRENT_FLOW_URN (job st') = Some h)).
Proof.
  intros E.
  destruct (due_step_state force now st) as [r Hr].
  unfold StartNewRun in E. unfold bind at 1 in E. rewrite Hr in E.
  destruct r as [ex|b]; [injection E as <- _; split; [|split]; [reflexivity|reflexivity|left; auto]|].
  destruct b; [|injection E as <- _; split; [|split]; [reflexivity|reflexivity|left; auto]].
  destruct st as [[ca dis cur lrt lrs] n lk e s].
  destruct ca as [a|]; [|injection E as <- _; split; [|split]; [reflexivity|reflexivity|left; auto]].
  cbv beta iota zeta delta [negb bind get_cron_args get_job ret job CRON_ARGS] in E.
  unfold start_flow in E. simpl in E.
  destruct (StartAFF4Flow (runner_flow_name a) e) as [[h e']|] eqn:Es; simpl in E.
  - injection E as <- _. split; [|split]; [reflexivity|reflexivity|].
    right. exists h. split; [apply (StartAFF4Flow_log _ _ _ _ Es)|reflexivity].
  - injection E as <- _. split; [|split]; [reflexivity|reflexivity|left; auto].
Qed.

Ltac run_cbv :=
  cbv beta iota zeta delta [KillOldFlows IsRunning StopCurrentRun ReapFinishedFlow
    get_job get_flow get_cron_args get_basename modify_job modify_eng emit bind ret raise
    is_running negb andb job eng stats urn_basename locked
    CRON_ARGS DISABLED CURRENT_FLOW_URN LAST_RUN_TIME LAST_RUN_STATUS
    set_current_flow_urn add_last_run_status].

(** A running flow past its lifetime is stopped by [KillOldFlows]. *)
Lemma KillOldFlows_timeout (now : Z) (j : CronJob) (n : string) (lk : bool) (e : Engine)
    (s : list StatEvent) (a : CreateCronJobFlowArgs) (u : nat) (t : Z) :
  CRON_ARGS j = Some a -> lifetime a <> 0 ->
  CURRENT_FLOW_URN j = Some u -> flows e !! u = Some RUNNING ->
  LAST_RUN_TIME j = Some t -> now - t > lifetime a ->
  KillOldFlows now {| job := j; urn_basename := n; locked := lk; eng := e; stats := s |} =
  ({| job := set_current_flow_urn None (add_last_run_status Status_TIMEOUT j);
      urn_basename := n; locked := lk; eng := TerminateAFF4Flow u e;
      stats := s ++ [IncrementCounter "cron_job_timeout" [n];
                     RecordEvent "cron_job_latency" (now - t) [n]] |}, inr true).
Proof.
  intros Ha Hl Hu Hf Ht Hel.
  destruct j as [ca dis cur lrt lrs]; simpl in *; subst.
  run_cbv. rewrite Hf.
  rewrite (bool_decide_eq_true_2 (lifetime a <> 0)) by exact Hl.
  rewrite (bool_decide_eq_true_2 (now - t > lifetime a)) by exact Hel.
  simpl. rewrite <- app_assoc. reflexivity.
Qed.

(** With no tracked flow the finished-run block does nothing. *)
Lemma ReapFinishedFlow_idle (now : Z) (st : RunState) :
  CURRENT_FLOW_URN (job st) = None -> ReapFinishedFlow now st = (st, inr tt).
Proof.
  intros H. unfold ReapFinishedFlow, get_job, bind. rewrite H. reflexivity.
Qed.

(** C1, counterexample: the tracked flow has finished (TERMINATED) and its
    lifetime is long exceeded, yet [Run] records OK, not TIMEOUT, and sends
    no terminate request: [KillOldFlows] only acts on a running flow. *)
Lemma Run_finished_overdue_flow_not_timed_out :
  let st := sample_state (sample_job false (sample_args 600 false) (Some 3%nat) (Some 0))
                         {[3%nat := TERMINATED]} in
  let st' := fst (Run false 5000 st) in
  5000 - 0 > 600 /\
  LAST_RUN_STATUS (job st') = [Status_OK] /\
  ~ In (Terminated 3) (eng_log (eng st')).
Proof.
  intros st st'. split; [lia|]. split.
  - reflexivity.
  - vm_compute. intuition discriminate.
Qed.

(** C1 (amended): when the tracked flow is still running (the engine reports
    RUNNING), the lifetime is set and [now - last_run_time > lifetime], the
    evaluation first sends a terminate request for that flow, records TIMEOUT,
    stops tracking it and counts the timeout, whatever [force] and
    [DueToRun] say; the only later effect is possibly starting a new flow,
    which is then the tracked one. *)
Theorem Run_reaps_overdue_running_flow (force : bool) (now : Z) (st : RunState)
    (a : CreateCronJobFlowArgs) (u : nat) (t : Z)
    (Hlock : locked st = true) (Hargs : CRON_ARGS (job st) = Some a)
    (Hlife : lifetime a <> 0) (Hcur : CURRENT_FLOW_URN (job st) = Some u)
    (Hrun : flows (eng st) !! u = Some RUNNING)
    (Hlast : LAST_RUN_TIME (job st) = Some t) (Hover : now - t > lifetime a) :
  let st' := fst (Run force now st) in
  LAST_RUN_STATUS (job st') = LAST_RUN_STATUS (job st) ++ [Status_TIMEOUT] /\
  stats st' = stats st ++ [IncrementCounter "cron_job_timeout" [urn_basename st];
                           RecordEvent "cron_job_latency" (now - t) [urn_basename st]] /\
  ((eng_log (eng st') = eng_log (eng st) ++ [Terminated u] /\
    CURRENT_FLOW_URN (job st') = None) \/
   (exists h, eng_log (eng st') = eng_log (eng st) ++ [Terminated u; Started h] /\
              CURRENT_FLOW_URN (job st') = Some h)).
Proof.
  destruct st as [j n lk e s]; simpl in *. subst lk.
  unfold Run. simpl negb. cbv iota.
  rewrite (bind_inr _ _ _ _ _ (KillOldFlows_timeout now j n true e s a u t
                                 Hargs Hlife Hcur Hrun Hlast Hover)).
  rewrite (bind_inr _ _ _ _ _ (ReapFinishedFlow_idle now
    {| job := set_current_flow_urn None (add_last_run_status Status_TIMEOUT j);
       urn_basename := n; locked := true; eng := TerminateAFF4Flow u e;
       stats := s ++ [IncrementCounter "cron_job_timeout" [n];
                      RecordEvent "cron_job_latency" (now - t) [n]] |} eq_refl)).
  destruct (StartNewRun force now _) as [st' r] eqn:E. simpl.
  destruct (StartNewRun_shape _ _ _ _ _ E) as (H1 & H2 & H3). simpl in H1, H2, H3.
  split; [exact H1|]. split; [exact H2|].
  destruct H3 as [[H3 H4]|[h [H3 H4]]].
  - left. split; [exact H3|exact H4].
  - right. exists h. split; [|exact H4]. rewrite H3, <- app_assoc. reflexivity.
Qed.

Lemma Run_reaps_overdue_running_flow_witness :
  let st := sample_state (sample_job false (sample_args 600 false) (Some 3%nat) (Some 0))
                         {[3%nat := RUNNING]} in
  let st' := fst (Run false 1000 st) in
  LAST_RUN_STATUS (job st') = LAST_RUN_STATUS (job st) ++ [Status_TIMEOUT] /\
  stats st' = stats st ++ [IncrementCounter "cron_job_timeout" [urn_basename st];
                           RecordEvent "cron_job_latency" (1000 - 0) [urn_basename st]] /\
  ((eng_log (eng st') = eng_log (eng st) ++ [Terminated 3] /\
    CURRENT_FLOW_URN (job st') = None) \/
   (exists h, eng_log (eng st') = eng_log (eng st) ++ [Terminated 3; Started h] /\
              CURRENT_FLOW_URN (job st') = Some h)).
Proof.
  apply (Run_reaps_overdue_running_flow false 1000 _ (sample_args 600 false) 3 0);
    first [reflexivity | simpl; lia].
Defined.

(** A tracked flow that has finished is left to the finished-run block. *)
Lemma KillOldFlows_finished (now : Z) (st : RunState) (u : nat) (fs : FlowContextState) :
  CURRENT_FLOW_URN (job st) = Some u -> flows (eng st) !! u = Some fs ->
  is_running fs = false -> KillOldFlows now st = (st, inr false).
Proof.
  intros Hu Hf Hr. destruct st as [j n lk e s]; simpl in *.
  unfold KillOldFlows, IsRunning, get_job, get_flow, bind, ret.
  simpl. rewrite Hu. simpl. rewrite Hf. rewrite Hr. reflexivity.
Qed.

(** A running flow within its lifetime is left running. *)
Lemma KillOldFlows_in_time (now : Z) (st : RunState) (a : CreateCronJobFlowArgs)
    (u : nat) (t : Z) :
  CRON_ARGS (job st) = Some a -> CURRENT_FLOW_URN (job st) = Some u ->
  flows (eng st) !! u = Some RUNNING -> LAST_RUN_TIME (job st) = Some t ->
  (lifetime a = 0 \/ now - t <= lifetime a) ->
  KillOldFlows now st = (st, inr false).
Proof.
  intros Ha Hu Hf Ht Hin. destruct st as [[ca dis cur lrt lrs] n lk e s]; simpl in *; subst.
  run_cbv. rewrite Hf. simpl.
  destruct Hin as [H0|Hle].
  - rewrite H0. reflexivity.
  - rewrite (bool_decide_eq_false_2 (now - t > lifetime a)) by lia.
    destruct (bool_decide (lifetime a <> 0)); reflexivity.
Qed.

(** The finished-run block leaves a running flow alone. *)
Lemma ReapFinishedFlow_running (now : Z) (st : RunState) (u : nat) :
  CURRENT_FLOW_URN (job st) = Some u -> flows (eng st) !! u = Some RUNNING ->
  ReapFinishedFlow now st = (st, inr tt).
Proof.
  intros Hu Hf. destruct st as [j n lk e s]; simpl in *.
  unfold ReapFinishedFlow, get_job, get_flow, bind, ret. simpl. rewrite Hu. simpl.
  rewrite Hf. reflexivity.
Qed.

(** C3, counterexample: with overruns disallowed and a running tracked flow,
    a forced evaluation starts a second flow and replaces the tracked URN. *)
Lemma Run_forced_starts_second_flow :
  let st := sample_state (sample_job false (sample_args 600 false) (Some 3%nat) (Some 0))
                         {[3%nat := RUNNING]} in
  let st' := fst (Run true 100 st) in
  allow_overruns (sample_args 600 false) = false /\
  flows (eng st') !! 3%nat = Some RUNNING /\
  eng_log (eng st') = [Started 7] /\
  CURRENT_FLOW_URN (job st') = Some 7%nat.
Proof. intros st st'. vm_compute. auto. Qed.

(** C3 (amended): with overruns disallowed, an evaluation without [force]
    whose tracked flow is still running and within its lifetime changes
    nothing: no flow is started and the tracked URN stays as it is. *)
Theorem Run_keeps_running_flow (now : Z) (st : RunState) (a : CreateCronJobFlowArgs)
    (u : nat) (t : Z)
    (Hlock : locked st = true) (Hargs : CRON_ARGS (job st) = Some a)
    (Hno : allow_overruns a = false) (Hcur : CURRENT_FLOW_URN (job st) = Some u)
    (Hrun : flows (eng st) !! u = Some RUNNING) (Hlast : LAST_RUN_TIME (job st) = Some t)
    (Hin : lifetime a = 0 \/ now - t <= lifetime a) :
  Run false now st = (st, inr tt).
Proof.
  unfold Run. rewrite Hlock. simpl negb. cbv iota.
  rewrite (bind_inr _ _ _ _ _ (KillOldFlows_in_time now st a u t Hargs Hcur Hrun Hlast Hin)).
  rewrite (bind_inr _ _ _ _ _ (ReapFinishedFlow_running now st u Hcur Hrun)).
  destruct st as [[ca dis cur lrt lrs] n lk e s]; simpl in *; subst.
  unfold StartNewRun, DueToRun, get_job, get_cron_args, bind, ret. simpl.
  destruct dis; [reflexivity|]. simpl.
  destruct (bool_decide (now > Expiry (periodicity a) t)); [|reflexivity].
  destruct (bool_decide (now < start_time a)); [reflexivity|].
  rewrite Hno. reflexivity.
Qed.

Lemma Run_keeps_running_flow_witness :
  let st := sample_state (sample_job false (sample_args 600 false) (Some 3%nat) (Some 0))
                         {[3%nat := RUNNING]} in
  Run false 500 st = (st, inr tt).
Proof.
  apply (Run_keeps_running_flow 500 _ (sample_args 600 false) 3 0);
    first [reflexivity | right; simpl; lia].
Defined.

(** C9: [Run] evaluated where the tracked flow ended in ERROR.  The flow
    is reaped with status ERROR and a failure count, but the ERROR branch of
    the finished-run block records no cron_job_latency, unlike its OK branch
    and the timeout path of [KillOldFlows]. *)
Lemma Run_failed_flow_no_latency :
  let st := sample_state (sample_job false (sample_args 600 false) (Some 3%nat) (Some 0))
                         {[3%nat := ERROR]} in
  let st' := fst (Run false 5000 st) in
  LAST_RUN_STATUS (job st') = [Status_ERROR] /\
  stats st' = [IncrementCounter "cron_job_failure" ["sample_job"]] /\
  (forall v f, ~ In (RecordEvent "cron_job_latency" v f) (stats st')).
Proof.
  intros st st'. vm_compute. split; [reflexivity|]. split; [reflexivity|].
  intros v f [H|H]; [discriminate|contradiction].
Qed.

(** ** The reap steps never start a flow *)

Lemma reap_frame_refl (st : RunState) : reap_frame st st.
Proof. repeat split; auto. Qed.

Lemma reap_frame_trans (a b c : RunState) :
  reap_frame a b -> reap_frame b c -> reap_frame a c.
Proof.
  intros (H1 & H2 & H3 & H4) (G1 & G2 & G3 & G4).
  split; [congruence|]. split; [congruence|]. split.
  - destruct G3 as [G3|G3]; [left; exact G3|]. rewrite G3. exact H3.
  - auto.
Qed.

Lemma reap_safe_bind {A B} (m : M A) (k : A -> M B) :
  reap_safe m -> (forall a, reap_safe (k a)) -> reap_safe (bind m k).
Proof.
  intros Hm Hk st. unfold bind.
  pose proof (Hm st) as H. destruct (m st) as [st1 [e|a]]; simpl in *; [exact H|].
  exact (reap_frame_trans _ _ _ H (Hk a st1)).
Qed.

Lemma reap_safe_ret {A} (a : A) : reap_safe (ret a).
Proof. intros st. apply reap_frame_refl. Qed.
Lemma reap_safe_raise {A} (e : exn) : reap_safe (@raise A e).
Proof. intros st. apply reap_frame_refl. Qed.
Lemma reap_safe_get_job : reap_safe get_job.
Proof. intros st. apply reap_frame_refl. Qed.
Lemma reap_safe_get_flow (h : nat) : reap_safe (get_flow h).
Proof. intros st. apply reap_frame_refl. Qed.
Lemma reap_safe_get_basename : reap_safe get_basename.
Proof. intros st. apply reap_frame_refl. Qed.
Lemma reap_safe_emit (ev : StatEvent) : reap_safe (emit ev).
Proof. intros st. repeat split; simpl; auto. Qed.
Lemma reap_safe_clear : reap_safe (modify_job (set_current_flow_urn None)).
Proof. intros st. repeat split; simpl; auto. Qed.
Lemma reap_safe_add_status (s : CronJobRunStatus) : reap_safe (modify_job (add_last_run_status s)).
Proof. intros st. repeat split; simpl; auto. Qed.
Lemma reap_safe_terminate (u : nat) : reap_safe (modify_eng (TerminateAFF4Flow u)).
Proof.
  intros st. repeat split; simpl; auto.
  intros h Hin. apply in_app_or in Hin. destruct Hin as [Hin|[Hin|[]]]; [exact Hin|discriminate].
Qed.

Create HintDb reap_safe.
#[local] Hint Resolve reap_safe_ret reap_safe_raise reap_safe_get_job reap_safe_get_flow
  reap_safe_get_basename reap_safe_emit reap_safe_clear reap_safe_add_status
  reap_safe_terminate : reap_safe.

Ltac reap_safe_tac :=
  repeat first
    [ progress auto with reap_safe
    | apply reap_safe_bind; [|intros ?]
    | progress cbv zeta
    | match goal with
      | |- reap_safe (match ?x with _ => _ end) => destruct x
      | |- reap_safe (if ?b then _ else _) => destruct b
      end ].

Lemma reap_safe_get_cron_args : reap_safe get_cron_args.
Proof. unfold get_cron_args. reap_safe_tac. Qed.
#[local] Hint Resolve reap_safe_get_cron_args : reap_safe.

Lemma reap_safe_KillOldFlows (now : Z) : reap_safe (KillOldFlows now).
Proof. unfold KillOldFlows, IsRunning, StopCurrentRun. reap_safe_tac. Qed.

Lemma reap_safe_ReapFinishedFlow (now : Z) : reap_safe (ReapFinishedFlow now).
Proof. unfold ReapFinishedFlow. reap_safe_tac. Qed.

(** Unforced, the start block of a disabled job does nothing. *)
Lemma StartNewRun_disabled (now : Z) (st : RunState) :
  DISABLED (job st) = true -> StartNewRun false now st = (st, inr tt).
Proof.
  intros H. unfold StartNewRun, DueToRun, get_job, bind, ret. rewrite H. reflexivity.
Qed.

(** C4, counterexample: a forced evaluation of a disabled job starts a flow
    and tracks it ([force] skips [DueToRun], the only place DISABLED is
    read). *)
Lemma Run_forced_disabled_job_starts :
  let st := sample_state (sample_job true (sample_args 600 false) None None) ∅ in
  let st' := fst (Run true 100 st) in
  DISABLED (job st) = true /\ eng_log (eng st') = [Started 7] /\
  CURRENT_FLOW_URN (job st') = Some 7%nat /\ LAST_RUN_TIME (job st') = Some 100.
Proof. intros st st'. vm_compute. auto. Qed.

(** C4 (amended): an evaluation without [force] of a disabled job sends no
    start request to the engine, tracks no new flow (the tracked URN is kept
    or cleared by a reap) and leaves LAST_RUN_TIME as it was. *)
Theorem Run_disabled_starts_no_flow (now : Z) (st : RunState)
    (Hdis : DISABLED (job st) = true) :
  let st' := fst (Run false now st) in
  (forall h, In (Started h) (eng_log (eng st')) -> In (Started h) (eng_log (eng st))) /\
  (CURRENT_FLOW_URN (job st') = None \/ CURRENT_FLOW_URN (job st') = CURRENT_FLOW_URN (job st)) /\
  LAST_RUN_TIME (job st') = LAST_RUN_TIME (job st).
Proof.
  assert (H : reap_frame st (fst (Run false now st))).
  { unfold Run. destruct (locked st); [simpl negb; cbv iota|apply reap_frame_refl].
    unfold bind at 1. pose proof (reap_safe_KillOldFlows now st) as H1.
    destruct (KillOldFlows now st) as [st1 [ex|?]]; simpl in *; [exact H1|].
    unfold bind at 1. pose proof (reap_safe_ReapFinishedFlow now st1) as H2.
    destruct (ReapFinishedFlow now st1) as [st2 [ex|?]]; simpl in *;
      [exact (reap_frame_trans _ _ _ H1 H2)|].
    rewrite StartNewRun_disabled; [exact (reap_frame_trans _ _ _ H1 H2)|].
    destruct H1 as [D1 _]. destruct H2 as [D2 _]. congruence. }
  destruct H as (_ & H2 & H3 & H4). split; [exact H4|]. split; [exact H3|exact H2].
Qed.

Lemma Run_disabled_starts_no_flow_witness :
  let st := sample_state (sample_job true (sample_args 600 false) None None) ∅ in
  let st' := fst (Run false 100 st) in
  (forall h, In (Started h) (eng_log (eng st')) -> In (Started h) (eng_log (eng st))) /\
  (CURRENT_FLOW_URN (job st') = None \/ CURRENT_FLOW_URN (job st') = CURRENT_FLOW_URN (job st)) /\
  LAST_RUN_TIME (job st') = LAST_RUN_TIME (job st).
Proof. apply (Run_disabled_starts_no_flow 100). reflexivity. Defined.

(** ** Pruning the run history *)

Lemma in_child_flows (cutoff : Z) (ch : gmap nat Z) (u : nat) :
  u ∈ ListChildren_before cutoff ch <-> exists t, ch !! u = Some t /\ t < cutoff.
Proof.
  unfold ListChildren_before. rewrite list_elem_of_fmap. split.
  - intros [[u' t] [-> Hin]]. apply elem_of_map_to_list in Hin.
    apply map_lookup_filter_Some in Hin. simpl in *. exists t. exact Hin.
  - intros [t Ht]. exists (u, t). split; [reflexivity|].
    apply elem_of_map_to_list. apply map_lookup_filter_Some. exact Ht.
Qed.

Lemma MultiDelete_lookup (urns : list nat) (ch : gmap nat Z) (u : nat) :
  MultiDelete urns ch !! u = if decide (u ∈ urns) then None else ch !! u.
Proof.
  unfold MultiDelete. induction urns as [|x urns IH]; simpl.
  - destruct (decide (u ∈ [])) as [H|H]; [apply not_elem_of_nil in H; contradiction|reflexivity].
  - rewrite lookup_delete. destruct (decide (x = u)) as [->|Hne].
    + destruct (decide (u ∈ u :: urns)) as [_|H]; [reflexivity|].
      exfalso. apply H. apply list_elem_of_here.
    + rewrite IH. destruct (decide (u ∈ urns)) as [H|H];
        destruct (decide (u ∈ x :: urns)) as [G|G]; try reflexivity.
      * exfalso. apply G. apply list_elem_of_further. exact H.
      * apply elem_of_cons in G. destruct G as [G|G]; [congruence|contradiction].
Qed.

Lemma MultiDelete_old_children (cutoff : Z) (ch : gmap nat Z) :
  MultiDelete (ListChildren_before cutoff ch) ch = filter (fun kv => ~ kv.2 < cutoff) ch.
Proof.
  apply map_eq. intros u. apply option_eq. intros t.
  rewrite map_lookup_filter_Some, MultiDelete_lookup. simpl.
  destruct (decide (u ∈ ListChildren_before cutoff ch)) as [H|H];
    rewrite in_child_flows in H.
  - destruct H as [t' [Ht Hlt]]. split; [discriminate|].
    intros [H1 H2]. rewrite Ht in H1. injection H1 as <-. contradiction.
  - split.
    + intros H1. split; [exact H1|]. intros Hlt. apply H. eauto.
    + intros [H1 _]. exact H1.
Qed.

(** C10: without a cutoff [DeleteOldRuns] raises ValueError; with one, it
    removes exactly the history entries older than the cutoff (entries at or
    after it stay), discards the queued flow state of exactly the removed
    runs, and returns the number of entries removed. *)
Theorem DeleteOldRuns_prunes_before_cutoff (w : RunsWorld) :
  DeleteOldRuns None w = inl ValueError /\
  forall cutoff, exists w' n,
    DeleteOldRuns (Some cutoff) w = inr (w', n) /\
    (forall u t, children w' !! u = Some t <-> children w !! u = Some t /\ cutoff <= t) /\
    (n + size (children w') = size (children w))%nat /\
    (forall u, u ∈ queued_states w' <->
               u ∈ queued_states w /\ ~ (exists t, children w !! u = Some t /\ t < cutoff)).
Proof.
  split; [reflexivity|]. intros cutoff.
  eexists _, _. split; [reflexivity|]. simpl.
  rewrite MultiDelete_old_children. split; [|split].
  - intros u t. rewrite map_lookup_filter_Some. simpl. split; intros [H1 H2]; split; auto; lia.
  - unfold ListChildren_before. rewrite length_map, length_map_to_list.
    rewrite <- map_size_disj_union by apply map_disjoint_filter_complement.
    rewrite map_filter_union_complement. reflexivity.
  - intros u. unfold MultiDestroyFlowStates.
    rewrite elem_of_difference, elem_of_list_to_set, in_child_flows. reflexivity.
Qed.

(** ** Redefining a job *)

(** One [CreateJob] call under an explicit id stores these arguments. *)
Lemma CreateJob_stores (D : Z) (uid : string) (args : CreateCronJobArgs) (id : string)
    (en : bool) (st : gmap string CronJob) (Hid : id <> "") :
  exists j a,
    CreateJob D uid args (Some id) en st = (<[id := j]> st, id) /\
    CRON_ARGS j = Some a /\
    description a = ca_description args /\ periodicity a = frequency args /\
    runner_flow_name a = "CreateAndRunGenericHuntFlow" /\
    flow_args a = {| hunt_flow_args := ca_flow_args args;
                     hunt_flow_name := ca_flow_name args;
                     hunt_runner_args :=
                       {| hunt_name := "GenericHunt";
                          hunt_runner_rest := hunt_runner_rest (ca_hunt_runner_args args) |} |} /\
    allow_overruns a = ca_allow_overruns args /\ lifetime a = ca_lifetime args /\
    start_time a =
      match CRON_ARGS (match st !! id with Some j => j | None => empty_job end) with
      | Some e => if bool_decide (start_time e <> 0) then start_time e else D
      | None => D
      end.
Proof.
  unfold CreateJob. cbv zeta. rewrite (bool_decide_eq_false_2 _ Hid).
  destruct (CRON_ARGS (match st !! id with Some j => j | None => empty_job end)) as [e|] eqn:He;
    [destruct (bool_decide (start_time e <> 0))|];
  match goal with |- context [decide (Some ?A <> ?E)] =>
    eexists; exists A; split; [reflexivity|];
    split; [destruct (decide (Some A <> E)) as [Hne|Heq];
            [reflexivity|apply dec_stable in Heq; simpl; rewrite He; exact (eq_sym Heq)]|];
    repeat split
  end.
Qed.


(** C8: creating a job a second time under the same id with only its
    frequency changed keeps the start time the first call stored, and
    updates the periodicity while the other arguments stay as they were. *)
Theorem CreateJob_redefinition_keeps_start_time (default_start_time : Z) (uid : string)
    (args : CreateCronJobArgs) (f : Z) (job_id : string) (enabled : bool)
    (store0 : gmap string CronJob) (Hid : job_id <> "") :
  let r1 := CreateJob default_start_time uid args (Some job_id) enabled store0 in
  let r2 := CreateJob default_start_time uid (with_frequency f args) (Some job_id) enabled r1.1 in
  r1.2 = job_id /\ r2.2 = job_id /\
  exists j1 j2 a1 a2,
    r1.1 !! job_id = Some j1 /\ CRON_ARGS j1 = Some a1 /\
    r2.1 !! job_id = Some j2 /\ CRON_ARGS j2 = Some a2 /\
    start_time a2 = start_time a1 /\ periodicity a2 = f /\
    description a2 = description a1 /\ runner_flow_name a2 = runner_flow_name a1 /\
    flow_args a2 = flow_args a1 /\ allow_overruns a2 = allow_overruns a1 /\
    lifetime a2 = lifetime a1.
Proof.
  cbv zeta.
  destruct (CreateJob_stores default_start_time uid args job_id enabled store0 Hid)
    as (j1 & a1 & E1 & Ha1 & D1 & P1 & R1 & F1 & O1 & L1 & S1).
  rewrite E1. cbn [fst snd].
  destruct (CreateJob_stores default_start_time uid (with_frequency f args) job_id enabled
              (<[job_id := j1]> store0) Hid)
    as (j2 & a2 & E2 & Ha2 & D2 & P2 & R2 & F2 & O2 & L2 & S2).
  rewrite E2. cbn [fst snd]. split; [reflexivity|]. split; [reflexivity|].
  exists j1, j2, a1, a2.
  rewrite !lookup_insert_eq. split; [reflexivity|]. split; [exact Ha1|].
  split; [reflexivity|]. split; [exact Ha2|].
  rewrite lookup_insert_eq, Ha1 in S2. simpl in *.
  split; [|split; [exact P2|]].
  - rewrite S2. destruct (bool_decide (start_time a1 <> 0)) eqn:Hs; [reflexivity|].
    apply bool_decide_eq_false, dec_stable in Hs. rewrite Hs in S1 |- *. revert S1.
    destruct (CRON_ARGS (match store0 !! job_id with Some j => j | None => empty_job end))
      as [e|]; [|intros H; symmetry; exact H].
    destruct (bool_decide (start_time e <> 0)) eqn:He; [|intros H; symmetry; exact H].
    apply bool_decide_eq_true in He. intros H. congruence.
  - split; [congruence|]. split; [congruence|]. split; [congruence|]. split; congruence.
Qed.

Lemma CreateJob_redefinition_keeps_start_time_witness :
  let args := {| ca_flow_name := "Interrogate"; ca_flow_args := "";
                 ca_hunt_runner_args := {| hunt_name := ""; hunt_runner_rest := "" |};
                 ca_description := "weekly"; frequency := 604800;
                 ca_allow_overruns := false; ca_lifetime := 3600 |} in
  let r1 := CreateJob 1000 "1" args (Some "weekly_job") true ∅ in
  let r2 := CreateJob 1000 "1" (with_frequency 86400 args) (Some "weekly_job") true r1.1 in
  r1.2 = "weekly_job" /\ r2.2 = "weekly_job" /\
  exists j1 j2 a1 a2,
    r1.1 !! "weekly_job" = Some j1 /\ CRON_ARGS j1 = Some a1 /\
    r2.1 !! "weekly_job" = Some j2 /\ CRON_ARGS j2 = Some a2 /\
    start_time a2 = start_time a1 /\ periodicity a2 = 86400 /\
    description a2 = description a1 /\ runner_flow_name a2 = runner_flow_name a1 /\
    flow_args a2 = flow_args a1 /\ allow_overruns a2 = allow_overruns a1 /\
    lifetime a2 = lifetime a1.
Proof.
  apply (CreateJob_redefinition_keeps_start_time 1000 "1" _ 86400 "weekly_job" true ∅).
  discriminate.
Defined.

(** ** The RunOnce loop *)

(** Each iteration makes one non-blocking lease request of 600 seconds and
    never raises. *)
Lemma RunOnceJob_total (force : bool) (now : Z) (name : string) (w : World) :
  exists w', RunOnceJob force now name w = inr w' /\
             lease_log w' = lease_log w ++ [(name, false, 600)].
Proof.
  unfold RunOnceJob, OpenWithLock. cbv zeta.
  destruct (lease_held _ name now); [eexists; split; reflexivity|].
  cbn [store leases w_eng w_stats lease_log].
  destruct (store w !! name) as [j|]; [|eexists; split; reflexivity].
  destruct (Run force now _) as [st' [ex|?]]; eexists; split; reflexivity.
Qed.

Lemma RunOnceJobs_total (force : bool) (now : Z) (names : list string) (w : World) :
  exists w', RunOnceJobs force now names w = inr w' /\
             lease_log w' = lease_log w ++ map (fun n => (n, false, 600)) names.
Proof.
  revert w. induction names as [|name rest IH]; intros w; simpl.
  - exists w. split; [reflexivity|]. rewrite app_nil_r. reflexivity.
  - destruct (RunOnceJob_total force now name w) as (w1 & E1 & L1). rewrite E1.
    destruct (IH w1) as (w2 & E2 & L2). exists w2. split; [exact E2|].
    rewrite L2, L1, <- app_assoc. reflexivity.
Qed.

(** C5: [RunOnce] makes, for each job of [names] (all listed jobs when
    [names] is absent or empty), one non-blocking lease request of 600
    seconds, and never raises; a job whose lease another holder keeps is
    skipped: its record, the engine and the stats are untouched and the loop
    goes on with the remaining jobs. *)
Theorem RunOnce_skips_leased_job (force : bool) (now : Z) (name : string)
    (rest : list string) (w : World) (Hheld : lease_held w name now = true) :
  RunOnceJobs force now (name :: rest) w =
    RunOnceJobs force now rest
      {| store := store w; leases := leases w; w_eng := w_eng w; w_stats := w_stats w;
         lease_log := lease_log w ++ [(name, false, 600)] |} /\
  (forall (names : option (list string)) (w0 : World),
     exists w', RunOnce force names now w0 = inr w' /\
       lease_log w' = lease_log w0 ++ map (fun n => (n, false, 600)) (effective_names names w0)).
Proof.
  split.
  - simpl. unfold RunOnceJob, OpenWithLock. cbv zeta.
    unfold lease_held at 1. simpl. unfold lease_held in Hheld. rewrite Hheld. reflexivity.
  - intros names w0. apply RunOnceJobs_total.
Qed.

Lemma RunOnce_skips_leased_job_witness :
  let w := {| store := <["b" := sample_job false (sample_args 600 false) None None]>
                         {["a" := sample_job false (sample_args 600 false) None None]};
              leases := {["a" := 1000]}; w_eng := sample_engine ∅; w_stats := [];
              lease_log := [] |} in
  lease_held w "a" 10 = true /\
  RunOnceJobs false 10 ["a"; "b"] w =
    RunOnceJobs false 10 ["b"]
      {| store := store w; leases := leases w; w_eng := w_eng w; w_stats := w_stats w;
         lease_log := lease_log w ++ [("a", false, 600)] |} /\
  (forall (names : option (list string)) (w0 : World),
     exists w', RunOnce false names 10 w0 = inr w' /\
       lease_log w' = lease_log w0 ++ map (fun n => (n, false, 600)) (effective_names names w0)).
Proof.
  intros w. split; [reflexivity|].
  apply (RunOnce_skips_leased_job false 10 "a" ["b"] w). reflexivity.
Defined.

(** C7: an exception raised by the evaluation of one job inside [RunOnce]
    is caught for that job: it is logged, [cron_internal_error] is
    incremented, the attributes set before the raise are flushed, the lease
    is released, and the loop goes on with the remaining jobs; [RunOnce]
    itself never raises. *)
Theorem RunOnce_contains_evaluation_error (force : bool) (now : Z) (name : string)
    (rest : list string) (w : World) (j : CronJob) (st' : RunState) (e : exn)
    (Hfree : lease_held w name now = false) (Hjob : store w !! name = Some j)
    (Herr : Run force now {| job := j; urn_basename := name; locked := true;
                              eng := w_eng w; stats := w_stats w |} = (st', inl e)) :
  RunOnceJobs force now (name :: rest) w =
    RunOnceJobs force now rest
      {| store := <[name := job st']> (store w);
         leases := delete name (<[name := now + 600]> (leases w));
         w_eng := eng st';
         w_stats := stats st' ++ [LogException name; IncrementCounter "cron_internal_error" []];
         lease_log := lease_log w ++ [(name, false, 600)] |} /\
  (forall (names : option (list string)) (w0 : World),
     exists w', RunOnce force names now w0 = inr w').
Proof.
  split.
  - simpl. unfold RunOnceJob, OpenWithLock. cbv zeta.
    unfold lease_held at 1. simpl. unfold lease_held in Hfree. rewrite Hfree. simpl.
    rewrite Hjob, Herr. reflexivity.
  - intros names w0. destruct (RunOnceJobs_total force now (effective_names names w0) w0)
      as (w' & E & _). exists w'. exact E.
Qed.

Lemma RunOnce_contains_evaluation_error_witness :
  let w := {| store := {["broken" := empty_job]}; leases := ∅; w_eng := sample_engine ∅;
              w_stats := []; lease_log := [] |} in
  let st0 := {| job := empty_job; urn_basename := "broken"; locked := true;
                eng := w_eng w; stats := w_stats w |} in
  let st' := fst (Run false 10 st0) in
  Run false 10 st0 = (st', inl AttributeError) /\
  RunOnceJobs false 10 ["broken"; "next"] w =
    RunOnceJobs false 10 ["next"]
      {| store := <["broken" := job st']> (store w);
         leases := delete "broken" (<["broken" := 10 + 600]> (leases w));
         w_eng := eng st';
         w_stats := stats st' ++ [LogException "broken"; IncrementCounter "cron_internal_error" []];
         lease_log := lease_log w ++ [("broken", false, 600)] |} /\
  (forall (names : option (list string)) (w0 : World),
     exists w', RunOnce false names 10 w0 = inr w').
Proof.
  intros w st0 st'. split; [reflexivity|].
  apply (RunOnce_contains_evaluation_error false 10 "broken" ["next"] w empty_job st'
           AttributeError); reflexivity.
Defined.

(** ** Further properties of the evaluation *)

(** A tracked URN that does not open as a flow is cleared by [IsRunning]. *)
Lemma KillOldFlows_dangling (now : Z) (st : RunState) (u : nat) :
  CURRENT_FLOW_URN (job st) = Some u -> flows (eng st) !! u = None ->
  KillOldFlows now st = (fst (modify_job (set_current_flow_urn None) st), inr false).
Proof.
  intros Hu Hf. destruct st as [[ca dis cur lrt lrs] n lk e s]; simpl in *; subst.
  run_cbv. rewrite Hf. reflexivity.
Qed.

(** A tracked URN that is not a flow (any more) is dropped: no status, no
    stat event, no engine request; the evaluation then goes on as for a job
    that tracks nothing. *)
Theorem Run_drops_dangling_flow_urn (force : bool) (now : Z) (st : RunState) (u : nat)
    (Hlock : locked st = true) (Hcur : CURRENT_FLOW_URN (job st) = Some u)
    (Hnone : flows (eng st) !! u = None) :
  Run force now st = StartNewRun force now (fst (modify_job (set_current_flow_urn None) st)).
Proof.
  unfold Run. rewrite Hlock. simpl negb. cbv iota.
  rewrite (bind_inr _ _ _ _ _ (KillOldFlows_dangling now st u Hcur Hnone)).
  rewrite (bind_inr _ _ _ _ _ (ReapFinishedFlow_idle now
    (fst (modify_job (set_current_flow_urn None) st)) eq_refl)). reflexivity.
Qed.

Lemma Run_drops_dangling_flow_urn_witness :
  let st := sample_state (sample_job false (sample_args 600 false) (Some 3%nat) (Some 0)) ∅ in
  Run false 5000 st = StartNewRun false 5000 (fst (modify_job (set_current_flow_urn None) st)).
Proof. apply (Run_drops_dangling_flow_urn false 5000 _ 3); reflexivity. Defined.

(** With a zero (unset) lifetime, [KillOldFlows] at most clears a dangling
    URN. *)
Lemma KillOldFlows_no_lifetime (now : Z) (st : RunState) (a : CreateCronJobFlowArgs) :
  CRON_ARGS (job st) = Some a -> lifetime a = 0 ->
  exists r, KillOldFlows now st = (st, r) \/
            KillOldFlows now st = (fst (modify_job (set_current_flow_urn None) st), r).
Proof.
  intros Ha Hl. destruct st as [[ca dis cur lrt lrs] n lk e s]; simpl in *; subst.
  run_cbv. destruct cur as [u|]; [|eauto].
  destruct (flows e !! u) as [[| |]|]; simpl; eauto.
  destruct lrt; [|eauto]. rewrite Hl. simpl. eauto.
Qed.

(** The finished-run block sends no engine request and appends at most an
    OK or ERROR status. *)
Lemma ReapFinishedFlow_shape (now : Z) (st st' : RunState) (r : exn + unit) :
  ReapFinishedFlow now st = (st', r) ->
  eng st' = eng st /\
  exists l, LAST_RUN_STATUS (job st') = LAST_RUN_STATUS (job st) ++ l /\ ~ In Status_TIMEOUT l.
Proof.
  intros E. destruct st as [[ca dis cur lrt lrs] n lk e s].
  revert E. run_cbv. intros E.
  assert (Hnil : ~ In Status_TIMEOUT []) by (intros []).
  assert (Hok : forall x, x <> Status_TIMEOUT -> ~ In Status_TIMEOUT [x])
    by (intros x Hx [H|[]]; congruence).
  destruct cur as [u|]; simpl in E;
    [|injection E as <- _; split; [reflexivity|exists []; rewrite app_nil_r; auto]].
  destruct (flows e !! u) as [fs|]; simpl in E;
    [|injection E as <- _; split; [reflexivity|exists []; rewrite app_nil_r; auto]].
  destruct fs; simpl in E;
    [injection E as <- _; split; [reflexivity|exists []; rewrite app_nil_r; auto]| |];
    simpl in E.
  - destruct lrt; injection E as <- _; (split; [reflexivity|]);
      eexists; (split; [reflexivity|apply Hok; discriminate]).
  - injection E as <- _. split; [reflexivity|].
    eexists; split; [reflexivity|apply Hok; discriminate].
Qed.

(** With a zero (unset) lifetime an evaluation never times a run out: it
    sends no terminate request and records no TIMEOUT status, however long
    the tracked flow has been running. *)
Theorem Run_unlimited_lifetime_never_times_out (force : bool) (now : Z) (st : RunState)
    (a : CreateCronJobFlowArgs) (Hargs : CRON_ARGS (job st) = Some a)
    (Hlife : lifetime a = 0) :
  let st' := fst (Run force now st) in
  (forall u, In (Terminated u) (eng_log (eng st')) -> In (Terminated u) (eng_log (eng st))) /\
  exists l, LAST_RUN_STATUS (job st') = LAST_RUN_STATUS (job st) ++ l /\ ~ In Status_TIMEOUT l.
Proof.
  cbv zeta. destruct (Run force now st) as [stf rf] eqn:ER. simpl. unfold Run in ER.
  assert (Hnone : ~ In Status_TIMEOUT []) by (intros []).
  destruct (locked st); simpl negb in ER; cbv iota in ER;
    [|injection ER as <- _; split; [auto|exists []; rewrite app_nil_r; auto]].
  destruct (KillOldFlows_no_lifetime now st a Hargs Hlife) as [r1 Hk].
  assert (Hst1 : exists st1, KillOldFlows now st = (st1, r1) /\ eng st1 = eng st /\
                             LAST_RUN_STATUS (job st1) = LAST_RUN_STATUS (job st))
    by (destruct Hk as [Hk|Hk]; eexists; split; [exact Hk| |exact Hk|]; split; reflexivity).
  clear Hk. destruct Hst1 as (st1 & Hk & E1 & S1).
  unfold bind at 1 in ER. rewrite Hk in ER.
  destruct r1 as [ex|?];
    [injection ER as <- _; rewrite E1, S1; split; [auto|exists []; rewrite app_nil_r; auto]|].
  unfold bind at 1 in ER. destruct (ReapFinishedFlow now st1) as [st2 r2] eqn:Hr.
  destruct (ReapFinishedFlow_shape _ _ _ _ Hr) as (E2 & l & S2 & Hl).
  destruct r2 as [ex|?];
    [injection ER as <- _; rewrite E2, E1, S2, S1; split; [auto|exists l; auto]|].
  destruct (StartNewRun_shape _ _ _ _ _ ER) as (S3 & _ & H3).
  rewrite S3, S2, S1. split; [|exists l; auto].
  intros v Hin. rewrite <- E1, <- E2.
  destruct H3 as [[H3 _]|[h [H3 _]]]; rewrite H3 in Hin; [exact Hin|].
  apply in_app_or in Hin. destruct Hin as [Hin|[Hin|[]]]; [exact Hin|discriminate].
Qed.

Lemma Run_unlimited_lifetime_never_times_out_witness :
  let st := sample_state (sample_job false (sample_args 0 false) (Some 3%nat) (Some 0))
                         {[3%nat := RUNNING]} in
  let st' := fst (Run false 1000000 st) in
  (forall u, In (Terminated u) (eng_log (eng st')) -> In (Terminated u) (eng_log (eng st))) /\
  exists l, LAST_RUN_STATUS (job st') = LAST_RUN_STATUS (job st) ++ l /\ ~ In Status_TIMEOUT l.
Proof. apply (Run_unlimited_lifetime_never_times_out false 1000000 _ (sample_args 0 false)); reflexivity. Defined.

(** [KillOldFlows] on a job that tracks no flow. *)
Lemma KillOldFlows_idle (now : Z) (st : RunState) :
  CURRENT_FLOW_URN (job st) = None -> KillOldFlows now st = (st, inr false).
Proof.
  intros H. unfold KillOldFlows, IsRunning, get_job, bind, ret. rewrite H. reflexivity.
Qed.

(** An idle, enabled job that is due (never run, or past its period), whose
    start time has come, gets exactly one new flow: the handle the engine
    returns becomes the tracked URN and [now] the last run time; no status
    and no stat event is recorded.  [force] makes no difference here. *)
Theorem Run_starts_due_idle_job (force : bool) (now : Z) (st : RunState)
    (a : CreateCronJobFlowArgs) (h : nat) (e' : Engine)
    (Hlock : locked st = true) (Hargs : CRON_ARGS (job st) = Some a)
    (Hen : DISABLED (job st) = false) (Hidle : CURRENT_FLOW_URN (job st) = None)
    (Hdue : match LAST_RUN_TIME (job st) with
            | None => True
            | Some t => now > Expiry (periodicity a) t
            end)
    (Hbegun : start_time a <= now)
    (Hflow : StartAFF4Flow (runner_flow_name a) (eng st) = Some (h, e')) :
  Run force now st =
    ({| job := set_last_run_time (Some now) (set_current_flow_urn (Some h) (job st));
        urn_basename := urn_basename st; locked := true; eng := e'; stats := stats st |},
     inr tt).
Proof.
  unfold Run. rewrite Hlock. simpl negb. cbv iota.
  rewrite (bind_inr _ _ _ _ _ (KillOldFlows_idle now st Hidle)).
  rewrite (bind_inr _ _ _ _ _ (ReapFinishedFlow_idle now st Hidle)).
  destruct st as [[ca dis cur lrt lrs] n lk e s]; simpl in *; subst.
  cbv beta iota zeta delta [StartNewRun DueToRun get_job get_cron_args start_flow bind ret
    raise modify_job negb job CRON_ARGS DISABLED CURRENT_FLOW_URN LAST_RUN_TIME eng stats
    urn_basename locked].
  destruct force; cbv beta iota; [rewrite Hflow; reflexivity|].
  rewrite (bool_decide_eq_false_2 (now < start_time a)) by lia.
  assert (Hd : match lrt with
               | Some t => bool_decide (now > Expiry (periodicity a) t)
               | None => true
               end = true)
    by (destruct lrt; [apply bool_decide_eq_true_2; exact Hdue|reflexivity]).
  rewrite Hd. destruct (allow_overruns a); cbv beta iota; rewrite Hflow; reflexivity.
Qed.

Lemma Run_starts_due_idle_job_witness :
  let st := sample_state (sample_job false (sample_args 600 false) None (Some 0)) ∅ in
  Run false 5000 st =
    ({| job := set_last_run_time (Some 5000) (set_current_flow_urn (Some 7%nat) (job st));
        urn_basename := urn_basename st; locked := true;
        eng := {| flows := {[7%nat := RUNNING]}; next_flow := 8; known_flow := fun _ => true;
                  eng_log := [Started 7] |};
        stats := stats st |}, inr tt).
Proof.
  apply (Run_starts_due_idle_job false 5000 _ (sample_args 600 false)); first [reflexivity | simpl; lia].
Defined.

(** Within one period of the last start, an unforced evaluation of a job
    whose flow is still running within its lifetime changes nothing, also
    when overruns are allowed. *)
Theorem Run_within_period_changes_nothing (now : Z) (st : RunState) (a : CreateCronJobFlowArgs)
    (u : nat) (t : Z)
    (Hlock : locked st = true) (Hargs : CRON_ARGS (job st) = Some a)
    (Hcur : CURRENT_FLOW_URN (job st) = Some u)
    (Hrun : flows (eng st) !! u = Some RUNNING) (Hlast : LAST_RUN_TIME (job st) = Some t)
    (Hperiod : now <= Expiry (periodicity a) t)
    (Hin : lifetime a = 0 \/ now - t <= lifetime a) :
  Run false now st = (st, inr tt).
Proof.
  unfold Run. rewrite Hlock. simpl negb. cbv iota.
  rewrite (bind_inr _ _ _ _ _ (KillOldFlows_in_time now st a u t Hargs Hcur Hrun Hlast Hin)).
  rewrite (bind_inr _ _ _ _ _ (ReapFinishedFlow_running now st u Hcur Hrun)).
  destruct st as [[ca dis cur lrt lrs] n lk e s]; simpl in *; subst.
  unfold StartNewRun, DueToRun, get_job, get_cron_args, bind, ret. simpl.
  destruct dis; [reflexivity|]. simpl.
  rewrite (bool_decide_eq_false_2 (now > Expiry (periodicity a) t)) by lia. reflexivity.
Qed.

Lemma Run_within_period_changes_nothing_witness :
  let st := sample_state (sample_job false (sample_args 0 true) (Some 3%nat) (Some 0))
                         {[3%nat := RUNNING]} in
  Run false 3600 st = (st, inr tt).
Proof.
  apply (Run_within_period_changes_nothing 3600 _ (sample_args 0 true) 3 0);
    first [reflexivity | left; reflexivity | simpl; unfold Expiry; lia].
Defined.

(** When the engine refuses to start the job's flow, an evaluation of a job
    that tracks nothing leaves the record as it was (LAST_RUN_TIME is only
    set after a successful start): it either returns because the job is not
    due or raises the engine's error. *)
Theorem Run_refused_start_records_nothing (force : bool) (now : Z) (st : RunState)
    (a : CreateCronJobFlowArgs)
    (Hlock : locked st = true) (Hargs : CRON_ARGS (job st) = Some a)
    (Hidle : CURRENT_FLOW_URN (job st) = None)
    (Hrefused : StartAFF4Flow (runner_flow_name a) (eng st) = None) :
  Run force now st = (st, inr tt) \/ Run force now st = (st, inl FlowError).
Proof.
  unfold Run. rewrite Hlock. simpl negb. cbv iota.
  rewrite (bind_inr _ _ _ _ _ (KillOldFlows_idle now st Hidle)).
  rewrite (bind_inr _ _ _ _ _ (ReapFinishedFlow_idle now st Hidle)).
  destruct st as [[ca dis cur lrt lrs] n lk e s]; simpl in *; subst.
  cbv beta iota zeta delta [StartNewRun DueToRun get_job get_cron_args start_flow bind ret
    raise modify_job negb job CRON_ARGS DISABLED CURRENT_FLOW_URN LAST_RUN_TIME eng stats
    urn_basename locked].
  destruct force; cbv beta iota; [rewrite Hrefused; right; reflexivity|].
  destruct dis; cbv beta iota; [left; reflexivity|].
  repeat match goal with
         | |- context [StartAFF4Flow _ _] => rewrite Hrefused; cbv beta iota
         | |- context [if ?b then _ else _] => destruct b; cbv beta iota
         | |- context [match lrt with Some _ => _ | None => _ end] => destruct lrt; cbv beta iota
         end; auto.
Qed.

Lemma Run_refused_start_records_nothing_witness :
  let st := {| job := sample_job false (sample_args 600 false) None None;
               urn_basename := "sample_job"; locked := true;
               eng := {| flows := ∅; next_flow := 7; known_flow := fun _ => false;
                         eng_log := [] |};
               stats := [] |} in
  Run false 5000 st = (st, inr tt) \/ Run false 5000 st = (st, inl FlowError).
Proof. apply (Run_refused_start_records_nothing false 5000 _ (sample_args 600 false)); reflexivity. Defined.

(** ** Further properties of the manager *)

(** Creating a job under the id of an existing one keeps the run state of
    the record (tracked flow, last run time, status history), sets DISABLED
    to [not enabled] and touches no other record. *)
Theorem CreateJob_keeps_run_state (D : Z) (uid : string) (args : CreateCronJobArgs)
    (id : string) (enabled : bool) (st : gmap string CronJob) (j : CronJob)
    (Hid : id <> "") (Hj : st !! id = Some j) :
  exists j', CreateJob D uid args (Some id) enabled st = (<[id := j']> st, id) /\
    DISABLED j' = negb enabled /\ CURRENT_FLOW_URN j' = CURRENT_FLOW_URN j /\
    LAST_RUN_TIME j' = LAST_RUN_TIME j /\ LAST_RUN_STATUS j' = LAST_RUN_STATUS j.
Proof.
  unfold CreateJob. cbv zeta. rewrite (bool_decide_eq_false_2 _ Hid), Hj.
  eexists. split; [reflexivity|].
  destruct (CRON_ARGS j) as [e|]; [destruct (bool_decide (start_time e <> 0))|];
    match goal with |- context [decide ?P] => destruct (decide P) end;
    simpl; auto.
Qed.

Lemma CreateJob_keeps_run_state_witness :
  let args := {| ca_flow_name := "Interrogate"; ca_flow_args := "";
                 ca_hunt_runner_args := {| hunt_name := ""; hunt_runner_rest := "" |};
                 ca_description := "weekly"; frequency := 604800;
                 ca_allow_overruns := false; ca_lifetime := 3600 |} in
  let j := sample_job false (sample_args 600 false) (Some 3%nat) (Some 100) in
  exists j', CreateJob 1000 "1" args (Some "weekly_job") false {["weekly_job" := j]} =
             (<["weekly_job" := j']> {["weekly_job" := j]}, "weekly_job") /\
    DISABLED j' = negb false /\ CURRENT_FLOW_URN j' = CURRENT_FLOW_URN j /\
    LAST_RUN_TIME j' = LAST_RUN_TIME j /\ LAST_RUN_STATUS j' = LAST_RUN_STATUS j.
Proof.
  apply (CreateJob_keeps_run_state 1000 "1" _ "weekly_job" false _ _);
    [discriminate | apply lookup_insert_eq].
Defined.

(** [EnableJob] undoes [DisableJob] on an enabled job: the job is disabled
    in between, and enabling it again gives back the store as it was. *)
Theorem EnableJob_undoes_DisableJob (id : string) (store : gmap string CronJob) (j : CronJob)
    (Hj : store !! id = Some j) (Hen : DISABLED j = false) :
  exists store', DisableJob id store = Some store' /\
    (store' !! id ≫= fun j' => Some (DISABLED j')) = Some true /\
    EnableJob id store' = Some store.
Proof.
  unfold DisableJob. rewrite Hj. eexists. split; [reflexivity|].
  split; [rewrite lookup_insert_eq; reflexivity|].
  unfold EnableJob. rewrite lookup_insert_eq, insert_insert_eq. f_equal.
  destruct j as [ca dis cur lrt lrs]; simpl in Hen; subst. apply insert_id. exact Hj.
Qed.

Lemma EnableJob_undoes_DisableJob_witness :
  let j := sample_job false (sample_args 600 false) None None in
  exists store', DisableJob "a" (<["b" := j]> {["a" := j]}) = Some store' /\
    (store' !! "a" ≫= fun j' => Some (DISABLED j')) = Some true /\
    EnableJob "a" store' = Some (<["b" := j]> {["a" := j]}).
Proof. apply (EnableJob_undoes_DisableJob _ _ (sample_job false (sample_args 600 false) None None)); reflexivity. Defined.

(** After a pruning pass, a second pass with the same cutoff removes
    nothing and changes nothing. *)
Theorem DeleteOldRuns_second_pass_removes_nothing (cutoff : Z) (w w1 : RunsWorld) (n : nat)
    (H : DeleteOldRuns (Some cutoff) w = inr (w1, n)) :
  DeleteOldRuns (Some cutoff) w1 = inr (w1, 0%nat).
Proof.
  simpl in H. injection H as <- _. unfold DeleteOldRuns. cbn [children queued_states].
  assert (Hnil : ListChildren_before cutoff
                   (MultiDelete (ListChildren_before cutoff (children w)) (children w)) = []).
  { destruct (ListChildren_before cutoff (MultiDelete _ _)) as [|u l] eqn:E; [reflexivity|].
    exfalso.
    assert (Hu : u ∈ ListChildren_before cutoff
                       (MultiDelete (ListChildren_before cutoff (children w)) (children w)))
      by (rewrite E; apply list_elem_of_here).
    apply in_child_flows in Hu. destruct Hu as [t [Ht Hlt]].
    rewrite MultiDelete_old_children in Ht.
    apply map_lookup_filter_Some in Ht. simpl in Ht. destruct Ht as [_ Hn]. contradiction. }
  rewrite Hnil. unfold MultiDestroyFlowStates at 1. simpl.
  rewrite difference_empty_L. reflexivity.
Qed.

Lemma DeleteOldRuns_second_pass_removes_nothing_witness :
  let w := {| children := <[2%nat := 50]> {[1%nat := 10]}; queued_states := {[1%nat; 2%nat]} |} in
  exists w1 n, DeleteOldRuns (Some 20) w = inr (w1, n) /\ n = 1%nat /\
               DeleteOldRuns (Some 20) w1 = inr (w1, 0%nat).
Proof.
  intros w. eexists _, _. split; [reflexivity|]. split; [vm_compute; reflexivity|].
  apply (DeleteOldRuns_second_pass_removes_nothing 20 w _ _ eq_refl).
Defined.

Lemma lease_held_lookup (w w' : World) (k : string) (now : Z) :
  leases w' !! k = leases w !! k -> lease_held w' k now = lease_held w k now.
Proof. unfold lease_held. intros ->. reflexivity. Qed.

(** One iteration of [RunOnce] touches only the record and the lease of its
    own job; a lease it takes is released again. *)
Lemma RunOnceJob_frame (force : bool) (now : Z) (name : string) (w w' : World) :
  RunOnceJob force now name w = inr w' ->
  (forall k, k <> name -> store w' !! k = store w !! k /\ leases w' !! k = leases w !! k) /\
  (if lease_held w name now then leases w' = leases w /\ store w' = store w
   else leases w' !! name = None).
Proof.
  unfold RunOnceJob, OpenWithLock, lease_held. cbn [store leases w_eng w_stats lease_log].
  destruct (leases w !! name) as [ex|] eqn:El;
    [destruct (bool_decide (now < ex)) eqn:Eb|].
  - intros H. injection H as <-. cbn [store leases].
    split; [intros k _; split; reflexivity|split; reflexivity].
  - cbv iota. destruct (store w !! name) as [j|] eqn:Es;
      [destruct (Run force now _) as [st' [ex'|?]]|];
      intros H; injection H as <-; cbn [store leases CloseWithLock];
      (split; [intros k Hk; rewrite ?lookup_insert_ne, lookup_delete_ne, lookup_insert_ne
                 by congruence; split; reflexivity|apply lookup_delete_eq]).
  - cbv iota. destruct (store w !! name) as [j|] eqn:Es;
      [destruct (Run force now _) as [st' [ex'|?]]|];
      intros H; injection H as <-; cbn [store leases CloseWithLock];
      (split; [intros k Hk; rewrite ?lookup_insert_ne, lookup_delete_ne, lookup_insert_ne
                 by congruence; split; reflexivity|apply lookup_delete_eq]).
Qed.

Lemma RunOnceJobs_frame (force : bool) (now : Z) (names : list string) (w w' : World) :
  RunOnceJobs force now names w = inr w' ->
  forall k,
    (k ∉ names -> store w' !! k = store w !! k /\ leases w' !! k = leases w !! k) /\
    (k ∈ names -> leases w' !! k = if lease_held w k now then leases w !! k else None).
Proof.
  revert w. induction names as [|name rest IH]; intros w H k; simpl in H.
  - injection H as <-. split; [auto|intros Hk; apply not_elem_of_nil in Hk; contradiction].
  - destruct (RunOnceJob force now name w) as [ex|w1] eqn:E1; [discriminate|].
    destruct (RunOnceJob_frame _ _ _ _ _ E1) as [F1 L1].
    destruct (IH w1 H k) as [F2 L2].
    split.
    + intros Hk. rewrite not_elem_of_cons in Hk. destruct Hk as [Hk1 Hk2].
      destruct (F2 Hk2) as [S2 T2]. destruct (F1 k Hk1) as [S1 T1].
      rewrite S2, T2. auto.
    + intros Hk. destruct (decide (k ∈ rest)) as [Hin|Hout].
      * rewrite (L2 Hin). destruct (decide (k = name)) as [->|Hne].
        -- case_eq (lease_held w name now); intros Eh; rewrite Eh in L1.
           ++ destruct L1 as [Lw _].
              rewrite (lease_held_lookup w w1 name now) by (rewrite Lw; reflexivity).
              rewrite Lw, Eh. reflexivity.
           ++ unfold lease_held at 1. rewrite L1. reflexivity.
        -- destruct (F1 k Hne) as [_ T1].
           rewrite (lease_held_lookup w w1 k now T1), T1. reflexivity.
      * apply elem_of_cons in Hk. destruct Hk as [->|Hk]; [|contradiction].
        destruct (F2 Hout) as [_ T2]. rewrite T2.
        case_eq (lease_held w name now); intros Eh; rewrite Eh in L1.
        -- destruct L1 as [Lw _]. rewrite Lw. reflexivity.
        -- exact L1.
Qed.

(** [RunOnce] leaves the records and leases of the jobs it does not
    evaluate as they were, and does not keep the leases it takes: after the
    pass an evaluated job whose lease was free when the pass started is
    unleased, and one whose lease another holder had in force then keeps
    that lease unchanged. *)
Theorem RunOnce_lease_discipline (force : bool) (names : option (list string)) (now : Z)
    (w w' : World) (Hr : RunOnce force names now w = inr w') (k : string) :
  (k ∉ effective_names names w -> store w' !! k = store w !! k /\ leases w' !! k = leases w !! k) /\
  (k ∈ effective_names names w ->
     leases w' !! k = if lease_held w k now then leases w !! k else None).
Proof. exact (RunOnceJobs_frame force now _ w w' Hr k). Qed.

(** The reap steps of an unforced evaluation of a disabled job, and the
    start block that then does nothing. *)
Lemma Run_disabled_frame (now : Z) (st : RunState) :
  DISABLED (job st) = true -> reap_frame st (fst (Run false now st)).
Proof.
  intros Hdis. unfold Run. destruct (locked st); [simpl negb; cbv iota|apply reap_frame_refl].
  unfold bind at 1. pose proof (reap_safe_KillOldFlows now st) as H1.
  destruct (KillOldFlows now st) as [st1 [ex|?]]; simpl in *; [exact H1|].
  unfold bind at 1. pose proof (reap_safe_ReapFinishedFlow now st1) as H2.
  destruct (ReapFinishedFlow now st1) as [st2 [ex|?]]; simpl in *;
    [exact (reap_frame_trans _ _ _ H1 H2)|].
  rewrite StartNewRun_disabled; [exact (reap_frame_trans _ _ _ H1 H2)|].
  destruct H1 as [D1 _]. destruct H2 as [D2 _]. congruence.
Qed.

(** Stays disabled, keeps LAST_RUN_TIME, tracks at most the flow of [j]. *)
Lemma RunOnceJob_disabled_step (now : Z) (name id : string) (w w' : World) (j j1 : CronJob) :
  RunOnceJob false now name w = inr w' ->
  store w !! id = Some j1 -> DISABLED j1 = true -> LAST_RUN_TIME j1 = LAST_RUN_TIME j ->
  (CURRENT_FLOW_URN j1 = None \/ CURRENT_FLOW_URN j1 = CURRENT_FLOW_URN j) ->
  exists j2, store w' !! id = Some j2 /\ DISABLED j2 = true /\
             LAST_RUN_TIME j2 = LAST_RUN_TIME j /\
             (CURRENT_FLOW_URN j2 = None \/ CURRENT_FLOW_URN j2 = CURRENT_FLOW_URN j).
Proof.
  intros E Hs Hd Hl Hc.
  destruct (decide (id = name)) as [->|Hne].
  - revert E. unfold RunOnceJob, OpenWithLock. cbv zeta.
    destruct (lease_held _ name now);
      [intros E; injection E as <-; exists j1; auto|].
    cbn [store leases w_eng w_stats lease_log]. rewrite Hs.
    match goal with |- context [Run false now ?st] =>
      pose proof (Run_disabled_frame now st Hd) as Hf;
      destruct (Run false now st) as [st' r]
    end.
    destruct Hf as (F1 & F2 & F3 & _). simpl in F1, F2, F3.
    destruct r; intros E; injection E as <-; exists (job st');
      (split; [apply lookup_insert_eq|]); (split; [congruence|]); (split; [congruence|]);
      (destruct F3 as [F3|F3]; [left; exact F3|rewrite F3; exact Hc]).
  - destruct (RunOnceJob_frame _ _ _ _ _ E) as [F _].
    destruct (F id Hne) as [S _]. exists j1. rewrite S. auto.
Qed.

(** After [DisableJob id], an unforced [RunOnce] pass never starts a run
    of that job: it stays disabled, its last run time stays, and it tracks
    at most the flow it tracked before (a reap may clear it). *)
Theorem DisableJob_stops_unforced_runs (id : string) (names : option (list string)) (now : Z)
    (w : World) (store' : gmap string CronJob) (w' : World)
    (Hd : DisableJob id (store w) = Some store')
    (Hr : RunOnce false names now (with_store store' w) = inr w') :
  exists j j', store w !! id = Some j /\ store w' !! id = Some j' /\ DISABLED j' = true /\
    LAST_RUN_TIME j' = LAST_RUN_TIME j /\
    (CURRENT_FLOW_URN j' = None \/ CURRENT_FLOW_URN j' = CURRENT_FLOW_URN j).
Proof.
  unfold DisableJob in Hd. destruct (store w !! id) as [j|] eqn:Ej; [|discriminate].
  injection Hd as <-. exists j.
  unfold RunOnce in Hr.
  assert (Hinv : forall ns w0 w1, RunOnceJobs false now ns w0 = inr w1 ->
            forall j0, store w0 !! id = Some j0 -> DISABLED j0 = true ->
            LAST_RUN_TIME j0 = LAST_RUN_TIME j ->
            (CURRENT_FLOW_URN j0 = None \/ CURRENT_FLOW_URN j0 = CURRENT_FLOW_URN j) ->
            exists j', store w1 !! id = Some j' /\ DISABLED j' = true /\
              LAST_RUN_TIME j' = LAST_RUN_TIME j /\
              (CURRENT_FLOW_URN j' = None \/ CURRENT_FLOW_URN j' = CURRENT_FLOW_URN j)).
  { induction ns as [|name rest IH]; intros w0 w1 E j0 Hs Hdis Hl Hc; simpl in E.
    - injection E as <-. eauto.
    - destruct (RunOnceJob false now name w0) as [ex|w2] eqn:E1; [discriminate|].
      destruct (RunOnceJob_disabled_step now name id w0 w2 j j0 E1 Hs Hdis Hl Hc)
        as (j2 & S2 & D2 & L2 & C2).
      exact (IH w2 w1 E j2 S2 D2 L2 C2). }
  destruct (Hinv _ _ _ Hr (set_disabled true j)) as (j' & H1 & H2 & H3 & H4);
    [apply lookup_insert_eq|reflexivity|reflexivity|right; reflexivity|].
  exists j'. auto.
Qed.

Lemma RunOnce_lease_discipline_witness :
  let j := sample_job false (sample_args 600 false) None None in
  let w := {| store := <["b" := j]> {["a" := j]}; leases := {["b" := 10000]};
              w_eng := sample_engine ∅; w_stats := []; lease_log := [] |} in
  match RunOnce false None 5000 w with
  | inl _ => False
  | inr w' =>
    ("b" ∉ effective_names None w -> store w' !! "b" = store w !! "b" /\
                                     leases w' !! "b" = leases w !! "b") /\
    ("b" ∈ effective_names None w ->
       leases w' !! "b" = if lease_held w "b" 5000 then leases w !! "b" else None)
  end.
Proof.
  intros j w. destruct (RunOnce false None 5000 w) as [e|w'] eqn:E;
    [vm_compute in E; discriminate|].
  apply (RunOnce_lease_discipline false None 5000 w w' E "b").
Defined.

Lemma DisableJob_stops_unforced_runs_witness :
  let j := sample_job false (sample_args 600 false) None None in
  let w := {| store := <["b" := j]> {["a" := j]}; leases := ∅;
              w_eng := sample_engine ∅; w_stats := []; lease_log := [] |} in
  match DisableJob "a" (store w) with
  | None => False
  | Some store' =>
    match RunOnce false None 5000 (with_store store' w) with
    | inl _ => False
    | inr w' =>
      exists j j', store w !! "a" = Some j /\ store w' !! "a" = Some j' /\ DISABLED j' = true /\
        LAST_RUN_TIME j' = LAST_RUN_TIME j /\
        (CURRENT_FLOW_URN j' = None \/ CURRENT_FLOW_URN j' = CURRENT_FLOW_URN j)
    end
  end.
Proof.
  intros j w. destruct (DisableJob "a" (store w)) as [store'|] eqn:Ed;
    [|vm_compute in Ed; discriminate].
  destruct (RunOnce false None 5000 (with_store store' w)) as [e|w'] eqn:E;
    [subst w; vm_compute in Ed; injection Ed as <-; vm_compute in E; discriminate|].
  apply (DisableJob_stops_unforced_runs "a" None 5000 w store' w' Ed E).
Defined.

(** ** Scheduling the system flows *)

Lemma schedule_system_flow_step (fresh : CreateCronJobFlowArgs) (disabled : list string)
    (registry : gmap string FlowClass) (name : string) (store store' : gmap string CronJob) :
  schedule_system_flow fresh disabled registry name store = Some store' ->
  (forall k, k <> name -> store' !! k = store !! k) /\
  exists cls, registry !! name = Some cls /\
    if is_system_cron_flow cls then
      exists j, store' !! name = Some j /\
        CRON_ARGS j = Some (system_cron_args fresh name cls) /\
        DISABLED j = negb (cls_enabled cls && bool_decide (name ∉ disabled))
    else store' = store.
Proof.
  unfold schedule_system_flow, FlowClassByName.
  destruct (registry !! name) as [cls|] eqn:Ec; [|discriminate].
  destruct (is_system_cron_flow cls) eqn:Es; simpl; intros H; injection H as <-;
    [|split; [auto|exists cls; rewrite Es; auto]].
  split; [intros k Hk; apply lookup_insert_ne; congruence|].
  exists cls. rewrite Es. split; [reflexivity|].
  eexists. split; [apply lookup_insert_eq|]. split.
  - match goal with |- context [decide ?P] => destruct (decide P) as [Hne|Heq] end;
      [reflexivity|apply dec_stable in Heq; simpl; exact (eq_sym Heq)].
  - simpl. destruct (cls_enabled cls); reflexivity.
Qed.

Lemma schedule_system_flows_frame (fresh : CreateCronJobFlowArgs) (disabled : list string)
    (registry : gmap string FlowClass) (names : list string) (store : gmap string CronJob)
    (k : string) :
  (~ In k names \/ forall cls, registry !! k = Some cls -> is_system_cron_flow cls = false) ->
  (schedule_system_flows fresh disabled registry names store).1 !! k = store !! k.
Proof.
  revert store. induction names as [|name rest IH]; intros store Hk; simpl; [reflexivity|].
  destruct (schedule_system_flow fresh disabled registry name store) as [store1|] eqn:E;
    [|reflexivity].
  destruct (schedule_system_flow_step _ _ _ _ _ _ E) as [F [cls [Hc Hs]]].
  rewrite IH by (destruct Hk as [Hk|Hk]; [left; intros H; apply Hk; right; exact H|right; exact Hk]).
  destruct (decide (k = name)) as [->|Hne]; [|apply F; exact Hne].
  destruct Hk as [Hk|Hk]; [exfalso; apply Hk; left; reflexivity|].
  rewrite (Hk cls Hc) in Hs. rewrite Hs. reflexivity.
Qed.

Lemma schedule_system_flows_sets (fresh : CreateCronJobFlowArgs) (disabled : list string)
    (registry : gmap string FlowClass) (names : list string) (store : gmap string CronJob)
    (k : string) (cls : FlowClass) :
  (forall n, In n names -> is_Some (registry !! n)) -> In k names ->
  registry !! k = Some cls -> is_system_cron_flow cls = true ->
  (schedule_system_flows fresh disabled registry names store).2 = None /\
  exists j, (schedule_system_flows fresh disabled registry names store).1 !! k = Some j /\
    CRON_ARGS j = Some (system_cron_args fresh k cls) /\
    DISABLED j = negb (cls_enabled cls && bool_decide (k ∉ disabled)).
Proof.
  revert store. induction names as [|name rest IH]; intros store Hall Hin Hc Hs; [destruct Hin|].
  simpl.
  destruct (schedule_system_flow fresh disabled registry name store) as [store1|] eqn:E.
  2:{ exfalso. destruct (Hall name (or_introl eq_refl)) as [c Hc'].
      unfold schedule_system_flow, FlowClassByName in E. rewrite Hc' in E.
      destruct (negb (is_system_cron_flow c)); discriminate. }
  assert (Hall' : forall n, In n rest -> is_Some (registry !! n)) by (intros n Hn; apply Hall; right; exact Hn).
  destruct (in_dec (decide_rel (@eq string)) k rest) as [Hr|Hr]; [exact (IH store1 Hall' Hr Hc Hs)|].
  destruct Hin as [<-|Hin]; [|contradiction].
  destruct (schedule_system_flow_step _ _ _ _ _ _ E) as [_ [cls' [Hc' Hs']]].
  rewrite Hc in Hc'. injection Hc' as <-. rewrite Hs in Hs'.
  split.
  - clear -Hall'. revert store1. induction rest as [|n rest IH]; intros store1; simpl; [reflexivity|].
    destruct (schedule_system_flow fresh disabled registry n store1) as [s|] eqn:E.
    + apply IH. intros m Hm. apply Hall'. right. exact Hm.
    + exfalso. destruct (Hall' n (or_introl eq_refl)) as [c Hc].
      unfold schedule_system_flow, FlowClassByName in E. rewrite Hc in E.
      destruct (negb (is_system_cron_flow c)); discriminate.
  - rewrite schedule_system_flows_frame by (left; exact Hr). exact Hs'.
Qed.

Lemma in_registry_names (registry : gmap string FlowClass) (n : string) :
  In n (map fst (map_to_list registry)) <-> is_Some (registry !! n).
Proof.
  rewrite in_map_iff. split.
  - intros [[n' c] [<- Hin]]. apply list_elem_of_In, elem_of_map_to_list in Hin. exists c. exact Hin.
  - intros [c Hc]. exists (n, c). split; [reflexivity|].
    apply list_elem_of_In, elem_of_map_to_list. exact Hc.
Qed.

Lemma ScheduleSystemCronFlows_fst (fresh : CreateCronJobFlowArgs) (disabled : list string)
    (registry : gmap string FlowClass) (names : option (list string)) (store : gmap string CronJob) :
  (ScheduleSystemCronFlows fresh disabled registry names store).1 =
  (schedule_system_flows fresh disabled registry
     (match names with None => map fst (map_to_list registry) | Some ns => ns end) store).1.
Proof.
  unfold ScheduleSystemCronFlows. cbv zeta.
  destruct (schedule_system_flows _ _ _ _ _) as [s [e|]]; [reflexivity|].
  destruct (disabled_jobs_errors registry disabled); reflexivity.
Qed.

Lemma disabled_jobs_errors_nil (registry : gmap string FlowClass) (disabled : list string) :
  disabled_jobs_errors registry disabled = [] <->
  forall n, In n disabled -> exists cls, registry !! n = Some cls /\ is_system_cron_flow cls = true.
Proof.
  induction disabled as [|name rest IH]; simpl.
  - split; [intros _ n []|reflexivity].
  - unfold FlowClassByName. destruct (registry !! name) as [cls|] eqn:Ec.
    + destruct (is_system_cron_flow cls) eqn:Es.
      * rewrite IH. split.
        -- intros H n [<-|Hn]; [exists cls; auto|exact (H n Hn)].
        -- intros H n Hn. exact (H n (or_intror Hn)).
      * split; [discriminate|]. intros H. destruct (H name (or_introl eq_refl)) as [c [Hc Hs]].
        congruence.
    + split; [discriminate|]. intros H. destruct (H name (or_introl eq_refl)) as [c [Hc _]].
      congruence.
Qed.

(** The worker's pass never stops at an unregistered name: its only error
    is the one about the disabled-jobs list. *)
Lemma ScheduleSystemCronFlows_snd (fresh : CreateCronJobFlowArgs) (disabled : list string)
    (registry : gmap string FlowClass) (store : gmap string CronJob) :
  (ScheduleSystemCronFlows fresh disabled registry None store).2 =
    match disabled_jobs_errors registry disabled with
    | [] => None
    | e :: es => Some (DisabledSystemJobsErrors (e :: es))
    end.
Proof.
  unfold ScheduleSystemCronFlows. cbv zeta.
  assert (Hok : (schedule_system_flows fresh disabled registry
                   (map fst (map_to_list registry)) store).2 = None).
  { assert (Hall : forall n, In n (map fst (map_to_list registry)) -> is_Some (registry !! n))
      by (intros n; apply in_registry_names).
    generalize dependent (map fst (map_to_list registry)). intros names Hall.
    clear -Hall. revert store. induction names as [|n rest IH]; intros store; simpl; [reflexivity|].
    destruct (schedule_system_flow fresh disabled registry n store) as [s|] eqn:E.
    + apply IH. intros m Hm. apply Hall. right. exact Hm.
    + exfalso. destruct (Hall n (or_introl eq_refl)) as [c Hc].
      unfold schedule_system_flow, FlowClassByName in E. rewrite Hc in E.
      destruct (negb (is_system_cron_flow c)); discriminate. }
  destruct (schedule_system_flows _ _ _ _ _) as [s [e|]]; simpl in Hok; [discriminate|].
  destruct (disabled_jobs_errors registry disabled); reflexivity.
Qed.

(** The worker's scheduling pass (all registered flows) gives every
    SystemCronFlow class a record whose CRON_ARGS carry the class's
    frequency, lifetime and allow_overruns and the class name as the flow to
    run.  DISABLED is set unless the class is enabled and not listed in
    Cron.disabled_system_jobs.  This holds also when the pass then raises
    for the disabled-jobs list. *)
Theorem ScheduleSystemCronFlows_sets_class_args (fresh : CreateCronJobFlowArgs)
    (disabled : list string) (registry : gmap string FlowClass) (store : gmap string CronJob)
    (name : string) (cls : FlowClass)
    (Hcls : registry !! name = Some cls) (Hsys : is_system_cron_flow cls = true) :
  exists j a, (ScheduleSystemCronFlows fresh disabled registry None store).1 !! name = Some j /\
    CRON_ARGS j = Some a /\
    periodicity a = cls_frequency cls /\ lifetime a = cls_lifetime cls /\
    allow_overruns a = cls_allow_overruns cls /\ runner_flow_name a = name /\
    DISABLED j = negb (cls_enabled cls && bool_decide (name ∉ disabled)).
Proof.
  rewrite ScheduleSystemCronFlows_fst.
  destruct (schedule_system_flows_sets fresh disabled registry (map fst (map_to_list registry))
              store name cls) as [_ [j [Hj [Ha Hd]]]]; auto.
  - intros n Hn. apply in_registry_names. exact Hn.
  - apply in_registry_names. rewrite Hcls. eexists; reflexivity.
  - exists j, (system_cron_args fresh name cls). repeat split; assumption.
Qed.

(** The worker's scheduling pass raises exactly when some name of
    Cron.disabled_system_jobs is not a registered flow or not a
    SystemCronFlow, and then only with the collected list of errors. *)
Theorem ScheduleSystemCronFlows_raises_on_bad_config (fresh : CreateCronJobFlowArgs)
    (disabled : list string) (registry : gmap string FlowClass) (store : gmap string CronJob) :
  (ScheduleSystemCronFlows fresh disabled registry None store).2 =
    match disabled_jobs_errors registry disabled with
    | [] => None
    | e :: es => Some (DisabledSystemJobsErrors (e :: es))
    end /\
  (disabled_jobs_errors registry disabled = [] <->
   forall n, In n disabled -> exists cls, registry !! n = Some cls /\ is_system_cron_flow cls = true).
Proof.
  split; [apply ScheduleSystemCronFlows_snd|apply disabled_jobs_errors_nil].
Qed.

(** With an explicit list of names, an unregistered name raises at its
    turn: the names before it are scheduled, the ones after it are not, and
    the errors about the disabled-jobs list are not reported. *)
Theorem ScheduleSystemCronFlows_unknown_name (fresh : CreateCronJobFlowArgs)
    (disabled : list string) (registry : gmap string FlowClass)
    (pre : list string) (name : string) (post : list string) (store : gmap string CronJob)
    (Hpre : forall n, In n pre -> is_Some (registry !! n)) (Hname : registry !! name = None) :
  ScheduleSystemCronFlows fresh disabled registry (Some (pre ++ name :: post)) store =
    ((schedule_system_flows fresh disabled registry pre store).1, Some (NoSuchFlow name)).
Proof.
  unfold ScheduleSystemCronFlows. cbv zeta.
  assert (H : schedule_system_flows fresh disabled registry (pre ++ name :: post) store =
              ((schedule_system_flows fresh disabled registry pre store).1, Some (NoSuchFlow name))).
  { clear -Hpre Hname. revert store. induction pre as [|n rest IH]; intros store; simpl.
    - unfold schedule_system_flow at 1, FlowClassByName. rewrite Hname. reflexivity.
    - destruct (schedule_system_flow fresh disabled registry n store) as [s|] eqn:E.
      + apply IH. intros m Hm. apply Hpre. right. exact Hm.
      + exfalso. destruct (Hpre n (or_introl eq_refl)) as [c Hc].
        unfold schedule_system_flow, FlowClassByName in E. rewrite Hc in E.
        destruct (negb (is_system_cron_flow c)); discriminate. }
  rewrite H. reflexivity.
Qed.

(** Scheduling never touches the record of a name that is not a
    SystemCronFlow (unregistered, or registered as another flow). *)
Theorem ScheduleSystemCronFlows_touches_only_system_flows (fresh : CreateCronJobFlowArgs)
    (disabled : list string) (registry : gmap string FlowClass) (names : option (list string))
    (store : gmap string CronJob) (k : string)
    (Hk : forall cls, registry !! k = Some cls -> is_system_cron_flow cls = false) :
  (ScheduleSystemCronFlows fresh disabled registry names store).1 !! k = store !! k.
Proof.
  rewrite ScheduleSystemCronFlows_fst. apply schedule_system_flows_frame. right. exact Hk.
Qed.

Lemma ScheduleSystemCronFlows_sets_class_args_witness :
  let cleanup := {| is_system_cron_flow := true; cls_frequency := 86400; cls_lifetime := 72000;
                    cls_allow_overruns := false; cls_enabled := true |} in
  let registry := <["Legacy" := {| is_system_cron_flow := false; cls_frequency := 0;
                                   cls_lifetime := 0; cls_allow_overruns := false;
                                   cls_enabled := true |}]> {["Cleanup" := cleanup]} in
  let old := {| description := "sample"; periodicity := 86400; runner_flow_name := "Cleanup";
                flow_args := sample_hunt_args; allow_overruns := false; lifetime := 72000;
                start_time := 1000 |} in
  let store := {["Cleanup" := sample_job false old None None]} in
  exists j a, (ScheduleSystemCronFlows (sample_args 0 false) ["Cleanup"; "Missing"] registry None
               store).1 !! "Cleanup" = Some j /\
    CRON_ARGS j = Some a /\
    periodicity a = cls_frequency cleanup /\ lifetime a = cls_lifetime cleanup /\
    allow_overruns a = cls_allow_overruns cleanup /\ runner_flow_name a = "Cleanup" /\
    DISABLED j = negb (cls_enabled cleanup && bool_decide ("Cleanup" ∉ ["Cleanup"; "Missing"])).
Proof.
  intros cleanup registry old store.
  apply (ScheduleSystemCronFlows_sets_class_args _ _ registry store "Cleanup" cleanup);
    reflexivity.
Defined.

Lemma ScheduleSystemCronFlows_unknown_name_witness :
  let registry := <["Legacy" := {| is_system_cron_flow := false; cls_frequency := 0;
                                   cls_lifetime := 0; cls_allow_overruns := false;
                                   cls_enabled := true |}]>
                  {["Cleanup" := {| is_system_cron_flow := true; cls_frequency := 86400;
                                    cls_lifetime := 72000; cls_allow_overruns := false;
                                    cls_enabled := true |}]} in
  ScheduleSystemCronFlows (sample_args 0 false) [] registry (Some (["Cleanup"] ++ "Missing" :: ["Legacy"])) ∅ =
    ((schedule_system_flows (sample_args 0 false) [] registry ["Cleanup"] ∅).1,
     Some (NoSuchFlow "Missing")).
Proof.
  intros registry. apply ScheduleSystemCronFlows_unknown_name; [|reflexivity].
  intros n [<-|[]]. eexists. reflexivity.
Defined.

Lemma ScheduleSystemCronFlows_touches_only_system_flows_witness :
  let registry := <["Legacy" := {| is_system_cron_flow := false; cls_frequency := 0;
                                   cls_lifetime := 0; cls_allow_overruns := false;
                                   cls_enabled := true |}]>
                  {["Cleanup" := {| is_system_cron_flow := true; cls_frequency := 86400;
                                    cls_lifetime := 72000; cls_allow_overruns := false;
                                    cls_enabled := true |}]} in
  let store := {["Legacy" := sample_job true (sample_args 600 false) None None]} in
  (ScheduleSystemCronFlows (sample_args 0 false) [] registry None store).1 !! "Legacy" =
    store !! "Legacy".
Proof.
  intros registry store. apply ScheduleSystemCronFlows_touches_only_system_flows.
  intros cls H. vm_compute in H. injection H as <-. reflexivity.
Defined.

(** ** Cron state of the stateful system flows *)

Lemma OpenWithLock_inr (urn : string) (blocking : bool) (lease_time now : Z) (w w' : World)
    (o : option CronJob) :
  OpenWithLock urn blocking lease_time now w = (w', inr o) ->
  o = store w !! urn /\ store w' = store w /\
  lease_log w' = lease_log w ++ [(urn, blocking, lease_time)] /\
  w_eng w' = w_eng w /\ w_stats w' = w_stats w /\
  exists t, leases w' = <[urn := t]> (leases w).
Proof.
  unfold OpenWithLock. cbv zeta.
  destruct (lease_held _ urn now); [destruct blocking; [destruct (blocking_retry _ _ _ _ _)|]|];
    intros H; inversion H; subst; cbn [store leases lease_log w_eng w_stats];
    repeat split; eauto.
Qed.




(** Reading the state back after a successful write gives the written
    state; an empty state is not written, so the read gives what was there
    before. *)
Theorem ReadCronState_after_WriteCronState (state : gmap string string) (name : string)
    (lease_time now : Z) (w : World) (sd : gmap string (gmap string string))
    (w' : World) (sd' : gmap string (gmap string string))
    (Hw : WriteCronState state name lease_time now w sd = inr (w', sd')) :
  ReadCronState name w' sd' =
    if bool_decide (state = ∅) then ReadCronState name w sd else inr state.
Proof.
  unfold WriteCronState in Hw. destruct (bool_decide (state = ∅)).
  - injection Hw as <- <-. reflexivity.
  - destruct (OpenWithLock name true lease_time now w) as [w1 [e|[j|]]] eqn:Eo;
      [discriminate| |discriminate].
    apply OpenWithLock_inr in Eo as [_ [Hs _]].
    injection Hw as <- <-. unfold ReadCronState, CloseWithLock. cbn [store].
    rewrite !lookup_insert_eq. reflexivity.
Qed.

Lemma ReadCronState_after_WriteCronState_witness :
  let j := sample_job false (sample_args 600 false) None None in
  let w := {| store := {["StatefulFlow" := j]}; leases := ∅; w_eng := sample_engine ∅;
              w_stats := []; lease_log := [] |} in
  let state := {["last_seen" := "42"]} : gmap string string in
  match WriteCronState state "StatefulFlow" 100 5000 w ∅ with
  | inl _ => False
  | inr (w', sd') =>
      ReadCronState "StatefulFlow" w' sd' =
        if bool_decide (state = ∅) then ReadCronState "StatefulFlow" w ∅ else inr state
  end.
Proof.
  intros j w state. destruct (WriteCronState state "StatefulFlow" 100 5000 w ∅) as [e|[w' sd']] eqn:E;
    [vm_compute in E; discriminate|].
  apply (ReadCronState_after_WriteCronState state "StatefulFlow" 100 5000 w ∅ w' sd' E).
Defined.

(** A successful write of a nonempty state makes one blocking lease
    request, releases the lease, leaves the CronJob records as they were and
    changes neither the state nor the lease of any other job. *)
Theorem WriteCronState_releases_lease (state : gmap string string) (name : string)
    (lease_time now : Z) (w : World) (sd : gmap string (gmap string string))
    (w' : World) (sd' : gmap string (gmap string string))
    (Hne : state <> ∅) (Hw : WriteCronState state name lease_time now w sd = inr (w', sd')) :
  leases w' !! name = None /\ store w' = store w /\
  lease_log w' = lease_log w ++ [(name, true, lease_time)] /\
  (forall k, k <> name -> sd' !! k = sd !! k /\ leases w' !! k = leases w !! k).
Proof.
  unfold WriteCronState in Hw. rewrite (bool_decide_eq_false_2 _ Hne) in Hw.
  destruct (OpenWithLock name true lease_time now w) as [w1 [e|[j|]]] eqn:Eo;
    [discriminate| |discriminate].
  apply OpenWithLock_inr in Eo as [Ej [Hs [Hlog [_ [_ [t Hl]]]]]].
  injection Hw as <- <-. unfold CloseWithLock. cbn [store leases lease_log].
  rewrite Hl, Hs.
  split; [apply lookup_delete_eq|]. split; [apply insert_id; symmetry; exact Ej|].
  split; [exact Hlog|].
  intros k Hk. rewrite lookup_delete_ne, !lookup_insert_ne by congruence.
  split; reflexivity.
Qed.

Lemma WriteCronState_releases_lease_witness :
  let j := sample_job false (sample_args 600 false) None None in
  let w := {| store := {["StatefulFlow" := j]}; leases := {["Other" := 9000]};
              w_eng := sample_engine ∅; w_stats := []; lease_log := [] |} in
  let state := {["last_seen" := "42"]} : gmap string string in
  state <> ∅ /\
  match WriteCronState state "StatefulFlow" 100 5000 w ∅ with
  | inl _ => False
  | inr (w', sd') =>
      leases w' !! "StatefulFlow" = None /\ store w' = store w /\
      lease_log w' = lease_log w ++ [("StatefulFlow", true, 100)] /\
      (forall k, k <> "StatefulFlow" -> sd' !! k = (∅ : gmap string (gmap string string)) !! k /\
                                       leases w' !! k = leases w !! k)
  end.
Proof.
  intros j w state. assert (Hne : state <> ∅) by (intros H; vm_compute in H; discriminate).
  split; [exact Hne|].
  destruct (WriteCronState state "StatefulFlow" 100 5000 w ∅) as [e|[w' sd']] eqn:E;
    [vm_compute in E; discriminate|].
  apply (WriteCronState_releases_lease state "StatefulFlow" 100 5000 w ∅ w' sd' Hne E).
Defined.



(** ** The worker loop *)

(** A name in Cron.disabled_system_jobs that is not a SystemCronFlow makes
    the worker raise before its first RunOnce pass: the system flows are
    scheduled, and nothing else happens (no lease request, no evaluation). *)
Theorem RunLoop_bad_config_stops_worker (fresh : CreateCronJobFlowArgs) (disabled : list string)
    (registry : gmap string FlowClass) (k : nat) (now sleep : Z) (w : World) (n : string)
    (Hn : In n disabled)
    (Hbad : forall cls, registry !! n = Some cls -> is_system_cron_flow cls = false) :
  exists errs,
    RunLoop fresh disabled registry k now sleep w =
      (with_store (ScheduleSystemCronFlows fresh disabled registry None (store w)).1 w,
       Some (DisabledSystemJobsErrors errs)).
Proof.
  pose proof (ScheduleSystemCronFlows_snd fresh disabled registry (store w)) as H.
  assert (Herr : disabled_jobs_errors registry disabled <> []).
  { intros Hnil. apply disabled_jobs_errors_nil with (n := n) in Hnil; [|exact Hn].
    destruct Hnil as [cls [Hc Hs]]. rewrite (Hbad cls Hc) in Hs. discriminate. }
  unfold RunLoop.
  destruct (ScheduleSystemCronFlows fresh disabled registry None (store w)) as [s e]. simpl in H |- *.
  destruct (disabled_jobs_errors registry disabled) as [|e1 es]; [contradiction|].
  subst e. exists (e1 :: es). reflexivity.
Qed.

Lemma RunLoop_bad_config_stops_worker_witness :
  let registry := <["Legacy" := {| is_system_cron_flow := false; cls_frequency := 0;
                                   cls_lifetime := 0; cls_allow_overruns := false;
                                   cls_enabled := true |}]>
                  {["Cleanup" := {| is_system_cron_flow := true; cls_frequency := 86400;
                                    cls_lifetime := 72000; cls_allow_overruns := false;
                                    cls_enabled := true |}]} in
  let w := {| store := ∅; leases := ∅; w_eng := sample_engine ∅; w_stats := [];
              lease_log := [] |} in
  exists errs,
    RunLoop (sample_args 0 false) ["Legacy"] registry 3 5000 300 w =
      (with_store (ScheduleSystemCronFlows (sample_args 0 false) ["Legacy"] registry None
                     (store w)).1 w,
       Some (DisabledSystemJobsErrors errs)).
Proof.
  intros registry w.
  apply (RunLoop_bad_config_stops_worker _ _ registry 3 5000 300 w "Legacy"); [left; reflexivity|].
  intros cls H. vm_compute in H. injection H as <-. reflexivity.
Defined.
